(** * gitlab-housekeep: artifact expiration, deletion and summary reconciliation

    A shallow embedding of [housekeeping.js].  The script talks to a GitLab
    instance through axios, reads the system clock and writes two JSON
    files; here the remote is a record of response functions, the clock is
    an argument, the files are an explicit state, and every network call
    and (for the deletion path) every console line is recorded in a trace
    of events. *)

From Stdlib Require Import ZArith Lia.
From stdpp Require Import base option list strings gmap pretty.

(** ** HTTP layer *)

(** What axios throws: [error.message] and, when the server answered,
    [error.response.data] and [error.response.status]. *)
Record HttpError := {
  message : string;
  response : option (string * Z)
}.

(** One page of a list endpoint: [response.data] and
    [response.headers['x-next-page']] (the empty string when the header is
    absent or empty, which JavaScript treats as false alike). *)
Record Page (A : Type) := {
  data : list A;
  x_next_page : string
}.
Arguments data {A} _.
Arguments x_next_page {A} _.

(** Truthiness of a string-or-null value: null, undefined and the empty
    string are false. *)
Definition truthy (v : option string) : bool :=
  match v with
  | Some s => negb (bool_decide (s = ""))
  | None => false
  end.

(** ** Data model *)

Module Job.
(** A job as [GET /projects/:id/jobs] lists it.  The two timestamp
    fields hold the time value (milliseconds since the epoch) that
    [new Date(field)] denotes for the ISO-8601 string the API sends;
    [None] is a null or absent field.  Strings that [new Date] cannot
    parse are not part of the model: the API does not send them. *)
Record t := {
  id : Z;
  created_at : option Z;
  artifacts_expire_at : option Z
}.
End Job.

Module Project.
(** A project as the API returns it and as the reconciler extends it:
    [statistics] is a JSON object of numeric counters, [error] is only
    ever set by the reconciler itself. *)
Record t := {
  id : Z;
  name : string;
  statistics : option (gmap string Z);
  error : option string
}.
End Project.

Module SummaryEntry.
(** An element of [gitlab_artifact_summary.json].  [projectId] and
    [projectName] are [None] when the key is undefined, which
    [JSON.stringify] leaves out and [JSON.parse] gives back as
    undefined.  [timestamp] is the time value that [toISOString]
    prints. *)
Record t := {
  projectId : option Z;
  projectName : option string;
  buildArtifactsSizeBytes : Z;
  buildArtifactsSizeMB : string;
  statistics : option (gmap string Z);
  error : option string;
  timestamp : Z
}.
End SummaryEntry.

(** The remote GitLab instance, one response function per endpoint the
    script calls; [inl] is a rejected request. *)
Record Remote := {
  get_projects : nat → HttpError + Page Project.t;
  get_project : Z → HttpError + Project.t;
  get_jobs : Z → nat → HttpError + Page Job.t;
  delete_artifacts : Z → Z → option HttpError
}.

(** Network calls, in the order they are issued. *)
Inductive call :=
| GetProjects (page : nat)
| GetProject (projectId : Z)
| GetJobs (projectId : Z) (page : nat)
| DeleteArtifacts (projectId jobId : Z).

(** Console lines of [deleteProjectArtifacts], one constructor per
    [console.log] / [console.error] of the function, with the values that
    are interpolated into the message. *)
Inductive line :=
| LogStarting (projectId : Z)
| LogDryRunMode
| LogDebugMode
| LogFound (jobs : nat) (projectId : Z)
| LogAssuming (jobId expireAtDate : Z)
| LogSkipping (jobId : Z)
| LogOlder (jobId projectId expireAtDate : Z)
| LogAttempting (jobId projectId : Z)
| LogDeleted (jobId : Z)
| LogDeleteError (jobId projectId : Z) (e : HttpError)
| LogWouldDelete (jobId projectId : Z)
| LogNotOlder (jobId expireAtDate : Z)
| LogCompleted (projectId : Z)
| LogUnhandled (projectId : Z) (e : HttpError).

Inductive event :=
| Net (c : call)
| Out (l : line).

(** How a run of an async function ends in the model. *)
Inductive outcome (A : Type) :=
| Returned (a : A)
| Thrown (e : HttpError)
| OutOfFuel.
Arguments Returned {A} a.
Arguments Thrown {A} e.
Arguments OutOfFuel {A}.

(** ** Paginated fetch *)

Section Pagination.
Context {A : Type}.
Variable get : nat → HttpError + Page A.
Variable request : nat → call.

(** The [do { ... } while (response.headers['x-next-page'])] loop of
    [fetchAllProjects], [fetchAllJobs] and [deleteProjectArtifacts]:
    [all] and [page] are the loop variables, [fuel] bounds the number of
    requests. *)
Fixpoint fetch_pages (fuel page : nat) (all : list A)
  : outcome (list A) * list event :=
  match fuel with
  | O => (OutOfFuel, [])
  | S fuel' =>
      match get page with
      | inl e => (Thrown e, [Net (request page)])
      | inr r =>
          let all' := all ++ data r in
          if truthy (Some (x_next_page r)) then
            let '(o, tr) := fetch_pages fuel' (S page) all' in
            (o, Net (request page) :: tr)
          else (Returned all', [Net (request page)])
      end
  end.

Definition fetch_all (fuel : nat) : outcome (list A) * list event :=
  fetch_pages fuel 1 [].
End Pagination.

(** ** Dates *)

Section Dates.
Local Open Scope Z_scope.

(** ECMAScript's [LocalTZA(t, isUTC)]: the offset of the host's time
    zone, in milliseconds, at the UTC time [t] ([isUTC = true]) or at the
    local time [t] ([isUTC = false]). *)
Variable LocalTZA : Z → bool → Z.

Definition msPerDay : Z := 86400000.

Definition LocalTime (t : Z) : Z := t + LocalTZA t true.
Definition UTC (t : Z) : Z := t - LocalTZA t false.

(** [d.setDate(d.getDate() + k)] on a date of time value [t].  [setDate]
    rebuilds the date from the local year and month with the new day
    number and the unchanged time within the day; with the day number
    taken from [getDate] that is the local time moved by [k] whole days,
    converted back to UTC.  Time values stay within the range of valid
    dates (about 270000 years around the epoch). *)
Definition shiftDate (k : Z) (t : Z) : Z :=
  UTC (LocalTime t + k * msPerDay).

(** Lines 82-83: [sevenDaysAgo] from the clock reading [now]. *)
Definition sevenDaysAgo (now : Z) : Z := shiftDate (-7) now.

(** Lines 86-97: the date a job's artifacts are taken to expire at, or
    [None] where the loop body does [continue]. *)
Definition expireAtDate (job : Job.t) : option Z :=
  match Job.artifacts_expire_at job with
  | Some t => Some t
  | None =>
      match Job.created_at job with
      | Some c => Some (shiftDate 7 c)
      | None => None
      end
  end.

(** Line 99: the test that guards the deletion branch. *)
Definition isExpired (now : Z) (job : Job.t) : bool :=
  match expireAtDate job with
  | Some e => bool_decide (e < sevenDaysAgo now)
  | None => false
  end.
End Dates.


(** ** Artifact deletion *)

Section Deletion.
Local Open Scope Z_scope.
Variable LocalTZA : Z → bool → Z.
Variable remote : Remote.

(** Lines 99-118: what the loop body does once [expireAtDate] is known. *)
Definition delete_if_old (projectId : Z) (debug dryRun : bool)
    (sevenDaysAgo : Z) (job : Job.t) (expireAtDate : Z) : list event :=
  if bool_decide (expireAtDate < sevenDaysAgo) then
    Out (LogOlder (Job.id job) projectId expireAtDate) ::
    (if negb dryRun then
       Out (LogAttempting (Job.id job) projectId) ::
       Net (DeleteArtifacts projectId (Job.id job)) ::
       match delete_artifacts remote projectId (Job.id job) with
       | None => [Out (LogDeleted (Job.id job))]
       | Some e => [Out (LogDeleteError (Job.id job) projectId e)]
       end
     else [Out (LogWouldDelete (Job.id job) projectId)])
  else if debug then [Out (LogNotOlder (Job.id job) expireAtDate)]
  else [].

(** Lines 85-119: one iteration of [for (const job of allJobs)]. *)
Definition job_step (projectId : Z) (debug dryRun : bool)
    (sevenDaysAgo : Z) (job : Job.t) : list event :=
  match expireAtDate LocalTZA job with
  | Some e =>
      (match Job.artifacts_expire_at job with
       | Some _ => []
       | None => if debug then [Out (LogAssuming (Job.id job) e)] else []
       end) ++ delete_if_old projectId debug dryRun sevenDaysAgo job e
  | None => if debug then [Out (LogSkipping (Job.id job))] else []
  end.

(** Lines 57-63: the banner printed before the [try]. *)
Definition banner (projectId : Z) (debug dryRun : bool) : list event :=
  Out (LogStarting projectId) ::
  (if dryRun then [Out LogDryRunMode] else []) ++
  (if debug then [Out LogDebugMode] else []).

(** Lines 66-78: the job listing, page by page. *)
Definition list_jobs (fuel : nat) (projectId : Z)
  : outcome (list Job.t) * list event :=
  fetch_all (get_jobs remote projectId) (GetJobs projectId) fuel.

(** [deleteProjectArtifacts(projectId, debug, dryRun)]; [now] is what
    [new Date()] reads after the listing.  The result is the boolean the
    promise resolves to, with the events in order. *)
Definition deleteProjectArtifacts (fuel : nat) (now : Z) (projectId : Z)
    (debug dryRun : bool) : outcome bool * list event :=
  match list_jobs fuel projectId with
  | (Returned allJobs, tr) =>
      (Returned true,
       banner projectId debug dryRun ++ tr ++
       (if debug then [Out (LogFound (length allJobs) projectId)] else []) ++
       flat_map (job_step projectId debug dryRun (sevenDaysAgo LocalTZA now))
                allJobs ++
       [Out (LogCompleted projectId)])
  | (Thrown e, tr) =>
      (Returned false,
       banner projectId debug dryRun ++ tr ++ [Out (LogUnhandled projectId e)])
  | (OutOfFuel, tr) => (OutOfFuel, banner projectId debug dryRun ++ tr)
  end.

(** The jobs a listing outcome carries into the loop. *)
Definition listed (o : outcome (list Job.t)) : list Job.t :=
  match o with
  | Returned allJobs => allJobs
  | _ => []
  end.
End Deletion.

(** The artifact-delete calls of a trace, as (project, job) pairs. *)
Definition delete_calls (tr : list event) : list (Z * Z) :=
  omap (λ ev, match ev with
              | Net (DeleteArtifacts p j) => Some (p, j)
              | _ => None
              end) tr.

(** The jobs a dry run reported it would delete. *)
Definition would_delete (tr : list event) : list (Z * Z) :=
  omap (λ ev, match ev with
              | Out (LogWouldDelete j p) => Some (p, j)
              | _ => None
              end) tr.

(** The delete failures a trace logged. *)
Definition delete_errors (tr : list event) : list (Z * HttpError) :=
  omap (λ ev, match ev with
              | Out (LogDeleteError j _ e) => Some (j, e)
              | _ => None
              end) tr.


(** ** Summary reconciliation *)

(** A file holding a JSON document: absent ([fs.existsSync] is false),
    present but rejected by [JSON.parse], or present with a value. *)
Inductive file (A : Type) :=
| Missing
| Corrupt
| Json (v : A).
Arguments Missing {A}.
Arguments Corrupt {A}.
Arguments Json {A} v.

(** An element of [projectsWithStatistics]: the list holds project
    objects from the API next to summary entries taken over from the
    loaded file (line 211). *)
Inductive record :=
| OfProject (p : Project.t)
| OfEntry (e : SummaryEntry.t).

(** Property reads on such an object; a key the object does not have
    reads as undefined, [None]. *)
Definition rec_id (r : record) : option Z :=
  match r with
  | OfProject p => Some (Project.id p)
  | OfEntry _ => None
  end.

Definition rec_name (r : record) : option string :=
  match r with
  | OfProject p => Some (Project.name p)
  | OfEntry _ => None
  end.

Definition rec_statistics (r : record) : option (gmap string Z) :=
  match r with
  | OfProject p => Project.statistics p
  | OfEntry e => SummaryEntry.statistics e
  end.

Definition rec_error (r : record) : option string :=
  match r with
  | OfProject p => Project.error p
  | OfEntry e => SummaryEntry.error e
  end.

(** The two files of the script. *)
Record Files := {
  OUTPUT_FILE : file (list SummaryEntry.t);
  RAW_STATISTICS_FILE : option (list record)
}.

(** Lines 166-177: the summary the run starts from. *)
Definition load (f : file (list SummaryEntry.t)) : list SummaryEntry.t :=
  match f with
  | Json v => v
  | _ => []
  end.

(** How [main] ends: it ran to its last line, the outer [catch] logged
    an error, [process.exit] was called, or the model ran out of fuel in
    a pagination loop. *)
Inductive status :=
| Finished
| Failed (e : HttpError)
| Exit (code : Z)
| Pending.

(** [Array.prototype.find] and [findIndex] with the callback
    [entry => entry.projectId === id]; [None] is undefined, resp. -1. *)
Definition find_entry (id : option Z) (l : list SummaryEntry.t)
  : option SummaryEntry.t :=
  snd <$> list_find (λ entry, SummaryEntry.projectId entry = id) l.

Definition findIndex_entry (id : option Z) (l : list SummaryEntry.t)
  : option nat :=
  fst <$> list_find (λ entry, SummaryEntry.projectId entry = id) l.

(** [(x).toFixed(2)] for [x = bytes / (1024 * 1024)]: the quotient is
    exact in a double for a byte count below 2^53, and [toFixed] takes the
    integer [n] with [n / 100] nearest to it, the larger one on a tie. *)
Definition sizeMB (bytes : Z) : string :=
  let n := ((200 * Z.abs bytes + 1048576) / 2097152)%Z in
  let r := (n mod 100)%Z in
  (if bool_decide (bytes < 0)%Z then "-" else "") +:+
  pretty (n / 100)%Z +:+ "." +:+
  (if bool_decide (r < 10)%Z then "0" else "") +:+ pretty r.

Definition unavailable : string :=
  "Build artifacts size not available in project statistics.".

(** Line 251: [project.statistics && project.statistics.job_artifacts_size],
    as the value the condition selects when it is true. *)
Definition job_artifacts_size (project : record) : option Z :=
  match rec_statistics project with
  | Some st =>
      match st !! "job_artifacts_size" with
      | Some n => if bool_decide (n = 0%Z) then None else Some n
      | None => None
      end
  | None => None
  end.

(** Lines 248-266: the summary entry of one record; [now] is the clock
    reading of line 265. *)
Definition summaryEntry (now : Z) (project : record) : SummaryEntry.t :=
  let projectError :=
    if truthy (rec_error project) then rec_error project else None in
  let '(buildArtifactsSizeBytes, projectError) :=
    match job_artifacts_size project with
    | Some n => (n, projectError)
    | None => (0%Z, Some unavailable)
    end in
  {| SummaryEntry.projectId := rec_id project;
     SummaryEntry.projectName := rec_name project;
     SummaryEntry.buildArtifactsSizeBytes := buildArtifactsSizeBytes;
     SummaryEntry.buildArtifactsSizeMB := sizeMB buildArtifactsSizeBytes;
     SummaryEntry.statistics := rec_statistics project;
     SummaryEntry.error := projectError;
     SummaryEntry.timestamp := now |}.

(** Lines 269-274: replace the first entry with that identifier, or
    append. *)
Definition upsert (summaries : list SummaryEntry.t) (id : option Z)
    (entry : SummaryEntry.t) : list SummaryEntry.t :=
  match findIndex_entry id summaries with
  | Some existingIndex => <[existingIndex := entry]> summaries
  | None => summaries ++ [entry]
  end.

(** The state of the loop of lines 246-279: the in-memory summaries, the
    content of the output file, and how often the clock was read. *)
Record GenState := {
  summaries : list SummaryEntry.t;
  saved : file (list SummaryEntry.t);
  ticks : nat
}.

(** One iteration of that loop: build, upsert, save. *)
Definition generate_step (clock : nat → Z) (st : GenState)
    (project : record) : GenState :=
  let s := upsert (summaries st) (rec_id project)
                  (summaryEntry (clock (ticks st)) project) in
  {| summaries := s; saved := Json s; ticks := S (ticks st) |}.

Definition generate (clock : nat → Z) (st : GenState)
    (projectsWithStatistics : list record) : GenState :=
  foldl (generate_step clock) st projectsWithStatistics.

Section Reconciler.
Variable remote : Remote.

(** Line 209: may the statistics fetch be skipped? *)
Definition can_skip (forceUpdate : bool)
    (existingEntry : option SummaryEntry.t) : bool :=
  negb forceUpdate &&
  match existingEntry with
  | Some e =>
      negb (truthy (SummaryEntry.error e)) &&
      bool_decide (is_Some (SummaryEntry.statistics e))
  | None => false
  end.

(** Lines 215-237: fetch one project with its statistics; a failed
    request leaves the basic project with empty statistics and the error
    text. *)
Definition fetch_statistics (project : Project.t) : Project.t :=
  match get_project remote (Project.id project) with
  | inr data => data
  | inl e =>
      {| Project.id := Project.id project;
         Project.name := Project.name project;
         Project.statistics := Some ∅;
         Project.error :=
           Some ("Error fetching statistics for project " +:+
                 pretty (Project.id project) +:+ ": " +:+ message e) |}
  end.

(** Lines 205-238: one iteration of [for (const project of basicProjects)],
    giving the record pushed and the calls made.  Where the test of line
    209 holds, [existingEntry] is an entry, and it is that object which is
    pushed. *)
Definition enrich (forceUpdate : bool)
    (projectArtifactSummaries : list SummaryEntry.t) (project : Project.t)
  : record * list event :=
  let existingEntry :=
    find_entry (Some (Project.id project)) projectArtifactSummaries in
  if can_skip forceUpdate existingEntry then
    match existingEntry with
    | Some e => (OfEntry e, [])
    | None => (OfProject project, [])
    end
  else
    (OfProject (fetch_statistics project),
     [Net (GetProject (Project.id project))]).

(** Lines 241-279: save the raw records, then generate the summary. *)
Definition finish (clock : nat → Z) (files : Files)
    (projectsWithStatistics : list record) : Files :=
  let st := generate clock
              {| summaries := load (OUTPUT_FILE files);
                 saved := OUTPUT_FILE files;
                 ticks := 0 |}
              projectsWithStatistics in
  {| OUTPUT_FILE := saved st;
     RAW_STATISTICS_FILE := Some projectsWithStatistics |}.

(** [main(targetProjectId, forceUpdate)].  [targetProjectId] is the
    parsed [--project-id] ([None] for null or NaN; 0, like these, fails
    the test of line 182). *)
Definition main (fuel : nat) (clock : nat → Z) (files : Files)
    (targetProjectId : option Z) (forceUpdate : bool)
  : status * Files * list event :=
  let projectArtifactSummaries := load (OUTPUT_FILE files) in
  let full :=
    match fetch_all (get_projects remote) GetProjects fuel with
    | (Returned basicProjects, tr) =>
        let rs := enrich forceUpdate projectArtifactSummaries
                    <$> basicProjects in
        (Finished, finish clock files (fst <$> rs), tr ++ mjoin (snd <$> rs))
    | (Thrown e, tr) => (Failed e, files, tr)
    | (OutOfFuel, tr) => (Pending, files, tr)
    end in
  match targetProjectId with
  | Some target =>
      if bool_decide (target = 0%Z) then full
      else
        match get_project remote target with
        | inr data =>
            (Finished, finish clock files [OfProject data],
             [Net (GetProject target)])
        | inl e => (Exit 1, files, [Net (GetProject target)])
        end
  | None => full
  end.
End Reconciler.

(** One invocation of the script in summary mode. *)
Record Run := {
  run_remote : Remote;
  run_fuel : nat;
  run_clock : nat → Z;
  run_target : option Z;
  run_force : bool
}.

Definition exec (files : Files) (r : Run) : Files :=
  snd (fst (main (run_remote r) (run_fuel r) (run_clock r) files
                 (run_target r) (run_force r))).

Definition exec_all (files : Files) (rs : list Run) : Files :=
  foldl exec files rs.

(** The statistics fetches of a trace. *)
Definition statistics_fetches (tr : list event) : list Z :=
  omap (λ ev, match ev with
              | Net (GetProject p) => Some p
              | _ => None
              end) tr.

(** ** Fleet-wide deletion *)

(** Console lines of [deleteAllExpiredArtifacts] itself; the two mode
    lines of its banner have the text of the per-project ones. *)
Inductive fleet_line :=
| LogStartingAll
| LogFoundProjects (projects : nat)
| LogProcessing (name : string) (projectId : Z)
| LogCompletedAll
| LogUnhandledAll (e : HttpError).

(** Events of a run of the script: those of the functions above, and the
    fleet-wide lines. *)
Inductive fleet_event :=
| Inner (ev : event)
| Fleet (l : fleet_line).

Section Fleet.
Variable LocalTZA : Z → bool → Z.
Variable remote : Remote.

(** Lines 144-147: the loop over the projects.  [clock 0] is what
    [new Date()] reads while the first project of the list is processed,
    [clock 1] while the second is, and so on.  The boolean a call
    resolves to is dropped (line 146); a rejection would leave the loop
    for the handler of line 150. *)
Fixpoint delete_each (fuel : nat) (clock : nat → Z) (debug dryRun : bool)
    (allProjects : list Project.t) : outcome () * list fleet_event :=
  match allProjects with
  | [] => (Returned (), [])
  | project :: rest =>
      let '(o, tr) :=
        deleteProjectArtifacts LocalTZA remote fuel (clock 0%nat)
          (Project.id project) debug dryRun in
      let here :=
        Fleet (LogProcessing (Project.name project) (Project.id project))
        :: (Inner <$> tr) in
      match o with
      | Returned _ =>
          let '(o', tr') := delete_each fuel (clock ∘ S) debug dryRun rest in
          (o', here ++ tr')
      | Thrown e => (Thrown e, here)
      | OutOfFuel => (OutOfFuel, here)
      end
  end.

(** [deleteAllExpiredArtifacts(debug, dryRun)], lines 131-158. *)
Definition deleteAllExpiredArtifacts (fuel : nat) (clock : nat → Z)
    (debug dryRun : bool) : outcome bool * list fleet_event :=
  let start :=
    Fleet LogStartingAll ::
    (if dryRun then [Inner (Out LogDryRunMode)] else []) ++
    (if debug then [Inner (Out LogDebugMode)] else []) in
  match fetch_all (get_projects remote) GetProjects fuel with
  | (Returned allProjects, tr) =>
      let found :=
        start ++ (Inner <$> tr) ++
        [Fleet (LogFoundProjects (length allProjects))] in
      match delete_each fuel clock debug dryRun allProjects with
      | (Returned _, tr') =>
          (Returned true, found ++ tr' ++ [Fleet LogCompletedAll])
      | (Thrown e, tr') =>
          (Returned false, found ++ tr' ++ [Fleet (LogUnhandledAll e)])
      | (OutOfFuel, tr') => (OutOfFuel, found ++ tr')
      end
  | (Thrown e, tr) =>
      (Returned false,
       start ++ (Inner <$> tr) ++ [Fleet (LogUnhandledAll e)])
  | (OutOfFuel, tr) => (OutOfFuel, start ++ (Inner <$> tr))
  end.
End Fleet.

(** The events of the inner functions in a trace of the script. *)
Definition inner_events (tr : list fleet_event) : list event :=
  omap (λ ev, match ev with
              | Inner e => Some e
              | Fleet _ => None
              end) tr.

(** ** Command line *)

(** [s.split(c)] for a one-character separator. *)
Fixpoint split (c : Ascii.ascii) (s : string) : list string :=
  match s with
  | EmptyString => [EmptyString]
  | String a s' =>
      if Ascii.eqb a c then EmptyString :: split c s'
      else
        match split c s' with
        | piece :: pieces => String a piece :: pieces
        | [] => [String a EmptyString]
        end
  end.

(** The character [=], code 61. *)
Definition equals_sign : Ascii.ascii := Ascii.ascii_of_nat 61.

(** [arg.split('=')[1]]; [None] is undefined. *)
Definition arg_value (arg : string) : option string :=
  split equals_sign arg !! 1%nat.

(** The configuration the script reads from the environment. *)
Record Env := {
  GITLAB_HOST : option string;
  GITLAB_PRIVATE_TOKEN : option string
}.

(** How the process ends: with an exit code, or not at all where a
    pagination loop of the model runs out of fuel. *)
Inductive exit :=
| ExitCode (code : Z)
| NoExit.

Section Script.
Variable LocalTZA : Z → bool → Z.
Variable remote : Remote.

(** The runtime's [parseInt(s, 10)]; [None] is NaN. *)
Variable parseInt : string → option Z.

(** Lines 302-308: what the arguments select. *)
Definition targetProjectId (args : list string) : option Z :=
  match find (String.prefix "--project-id=") args with
  | Some projectIdArg => arg_value projectIdArg ≫= parseInt
  | None => None
  end.

Definition forceUpdate (args : list string) : bool :=
  bool_decide ("--force-update" ∈ args).

Definition dryRun (args : list string) : bool :=
  bool_decide ("--dry-run" ∈ args).

Definition deleteProjectId (args : list string) : option string :=
  match find (String.prefix "--delete-project-id=") args with
  | Some deleteProjectIdArg => arg_value deleteProjectIdArg
  | None => None
  end.

(** The script as a whole: the configuration check of lines 8-11, then
    the dispatch of lines 310-344.  In the deletion modes [clock] gives
    the readings of [new Date()] project by project; in summary mode it
    gives those of line 265. *)
Definition script (env : Env) (args : list string) (fuel : nat)
    (clock : nat → Z) (files : Files) : exit * Files * list fleet_event :=
  if negb (truthy (GITLAB_HOST env)) ||
     negb (truthy (GITLAB_PRIVATE_TOKEN env))
  then (ExitCode 1, files, [])
  else if bool_decide (deleteProjectId args = Some "all") then
    match deleteAllExpiredArtifacts LocalTZA remote fuel clock true
            (dryRun args) with
    | (Returned _, tr) => (ExitCode 0, files, tr)
    | (Thrown _, tr) => (ExitCode 1, files, tr)
    | (OutOfFuel, tr) => (NoExit, files, tr)
    end
  else if truthy (deleteProjectId args) then
    match deleteProjectId args ≫= parseInt with
    | None => (ExitCode 1, files, [])
    | Some parsedProjectId =>
        match deleteProjectArtifacts LocalTZA remote fuel (clock 0%nat)
                parsedProjectId true (dryRun args) with
        | (Returned _, tr) => (ExitCode 0, files, Inner <$> tr)
        | (Thrown _, tr) => (ExitCode 1, files, Inner <$> tr)
        | (OutOfFuel, tr) => (NoExit, files, Inner <$> tr)
        end
    end
  else
    match main remote fuel clock files (targetProjectId args)
               (forceUpdate args) with
    | (Exit code, files', tr) => (ExitCode code, files', Inner <$> tr)
    | (Pending, files', tr) => (NoExit, files', Inner <$> tr)
    | (_, files', tr) => (ExitCode 0, files', Inner <$> tr)
    end.
End Script.

(** ** Notions the statements use *)

(** The request for [page] ends a pagination loop: it is rejected, or its
    response has no next page. *)
Definition stops {A : Type} (get : nat → HttpError + Page A) (page : nat)
  : Prop :=
  match get page with
  | inl _ => True
  | inr r => truthy (Some (x_next_page r)) = false
  end.

(** The jobs of a list that the expiration policy marks, as the (project,
    job) pairs a delete call or a dry-run report names, in list order. *)
Definition selected (LocalTZA : Z → bool → Z) (now projectId : Z)
    (jobs : list Job.t) : list (Z * Z) :=
  (λ job, (projectId, Job.id job)) <$>
  filter (λ job, isExpired LocalTZA now job = true) jobs.

(** The collection invariant of the data model: no two entries share a
    [projectId]. *)
Definition unique_ids (s : list SummaryEntry.t) : Prop :=
  NoDup (SummaryEntry.projectId <$> s).

(** Some entry of the collection has an undefined [projectId]. *)
Definition has_undefined_id (s : list SummaryEntry.t) : Prop :=
  ∃ x, x ∈ s ∧ SummaryEntry.projectId x = None.

(** The request for [page] is answered and announces a further page. *)
Definition continues {A : Type} (get : nat → HttpError + Page A)
    (page : nat) : Prop :=
  match get page with
  | inl _ => False
  | inr r => truthy (Some (x_next_page r)) = true
  end.

(** The items a page contributes. *)
Definition page_data {A : Type} (get : nat → HttpError + Page A)
    (page : nat) : list A :=
  match get page with
  | inl _ => []
  | inr r => data r
  end.

(** The network calls of a trace, in order. *)
Definition net_calls (tr : list event) : list call :=
  omap (λ ev, match ev with
              | Net c => Some c
              | Out _ => None
              end) tr.

(** A remote whose project endpoint answers with the project asked
    for. *)
Definition answers_by_id (remote : Remote) : Prop :=
  ∀ id data, get_project remote id = inr data → Project.id data = id.

(** A zone without offset changes, used by the examples. *)
Definition utc : Z → bool → Z := λ _ _, 0%Z.

(** New York around the start of daylight-saving time 2024: the offset
    is -5 h until 2024-03-10T07:00:00Z (2:00 local) and -4 h from then
    on.  A local time in the skipped hour is read with the offset before
    the change. *)
Definition new_york : Z → bool → Z := λ t isUTC,
  if isUTC
  then (if bool_decide (t < 1710054000000)%Z
        then (-18000000)%Z else (-14400000)%Z)
  else (if bool_decide (t < 1710039600000)%Z
        then (-18000000)%Z else (-14400000)%Z).

(** 2024-03-13T12:00:00Z, and a job without [artifacts_expire_at] created
    13 days 23.5 hours before it (2024-02-28T12:30:00Z). *)
Definition march_13_noon : Z := 1710331200000.

Definition job_february_28 : Job.t :=
  {| Job.id := 31; Job.created_at := Some 1709123400000%Z;
     Job.artifacts_expire_at := None |}.

(** ** Example remotes *)

Definition not_found : HttpError :=
  {| message := "Request failed with status code 404";
     response := Some ("404 Not Found", 404%Z) |}.

(** A project whose jobs come on two pages ([first] alone, then [rest])
    and whose delete calls fail for the jobs [failing] names. *)
Definition jobs_remote (first : Job.t) (rest : list Job.t)
    (failing : Z → bool) : Remote :=
  {| get_projects := λ _, inr {| data := []; x_next_page := "" |};
     get_project := λ _, inl not_found;
     get_jobs := λ _ page,
       match page with
       | 1 => inr {| data := [first]; x_next_page := "2" |}
       | _ => inr {| data := rest; x_next_page := "" |}
       end;
     delete_artifacts := λ _ j, if failing j then Some not_found else None |}.

Definition day : Z := msPerDay.

(** Jobs relative to a clock reading of day 100. *)
Definition job10 : Job.t :=
  {| Job.id := 10; Job.created_at := Some (60 * day)%Z;
     Job.artifacts_expire_at := Some (70 * day)%Z |}.
Definition job11 : Job.t :=
  {| Job.id := 11; Job.created_at := Some (98 * day)%Z;
     Job.artifacts_expire_at := Some (99 * day)%Z |}.
Definition job12 : Job.t :=
  {| Job.id := 12; Job.created_at := Some (80 * day)%Z;
     Job.artifacts_expire_at := None |}.
Definition job13 : Job.t :=
  {| Job.id := 13; Job.created_at := None;
     Job.artifacts_expire_at := None |}.

(** One project, "demo", with [size] bytes of job artifacts; the list
    endpoint gives the basic record, the project endpoint adds the
    statistics. *)
Definition demo_basic : Project.t :=
  {| Project.id := 1; Project.name := "demo";
     Project.statistics := None; Project.error := None |}.

Definition demo_full (size : Z) : Project.t :=
  {| Project.id := 1; Project.name := "demo";
     Project.statistics :=
       Some {[ "job_artifacts_size" := size; "storage_size" := 4096%Z ]};
     Project.error := None |}.

Definition demo_remote (size : Z) : Remote :=
  {| get_projects := λ _, inr {| data := [demo_basic]; x_next_page := "" |};
     get_project := λ id,
       if bool_decide (id = 1%Z) then inr (demo_full size) else inl not_found;
     get_jobs := λ _ _, inr {| data := []; x_next_page := "" |};
     delete_artifacts := λ _ _, None |}.

(** A full run against it, without [--force-update], all clock readings
    at [now]. *)
Definition demo_run (size now : Z) : Run :=
  {| run_remote := demo_remote size; run_fuel := 3;
     run_clock := λ _, now; run_target := None; run_force := false |}.

Definition fresh : Files :=
  {| OUTPUT_FILE := Missing; RAW_STATISTICS_FILE := None |}.

(** The entry a run at clock reading 1000 writes for "demo" with 1024
    bytes, and that entry without its identifier and name. *)
Definition demo_entry : SummaryEntry.t :=
  {| SummaryEntry.projectId := Some 1%Z;
     SummaryEntry.projectName := Some "demo";
     SummaryEntry.buildArtifactsSizeBytes := 1024;
     SummaryEntry.buildArtifactsSizeMB := "0.00";
     SummaryEntry.statistics := Project.statistics (demo_full 1024);
     SummaryEntry.error := None;
     SummaryEntry.timestamp := 1000 |}.

Definition anonymous_entry : SummaryEntry.t :=
  {| SummaryEntry.projectId := None;
     SummaryEntry.projectName := None;
     SummaryEntry.buildArtifactsSizeBytes := 1024;
     SummaryEntry.buildArtifactsSizeMB := "0.00";
     SummaryEntry.statistics := Project.statistics (demo_full 1024);
     SummaryEntry.error := None;
     SummaryEntry.timestamp := 1000 |}.

(** The files after one run on a fresh directory. *)
Definition after_first_run : Files := exec fresh (demo_run 1024 1000).

(** A listing of four jobs on two pages; the delete call for job 10
    fails. *)
Definition four_jobs_remote : Remote :=
  jobs_remote job10 [job11; job12; job13] (λ j, bool_decide (j = 10%Z)).

Definition three_jobs_remote : Remote :=
  jobs_remote job10 [job13; job12] (λ _, false).

(** Two projects: the job listing of project 1 is rejected, project 2
    has jobs 10 and 12 on one page. *)
Definition other_basic : Project.t :=
  {| Project.id := 2; Project.name := "other";
     Project.statistics := None; Project.error := None |}.

Definition fleet_remote : Remote :=
  {| get_projects := λ _,
       inr {| data := [demo_basic; other_basic]; x_next_page := "" |};
     get_project := λ _, inl not_found;
     get_jobs := λ projectId _,
       if bool_decide (projectId = 2%Z)
       then inr {| data := [job10; job12]; x_next_page := "" |}
       else inl not_found;
     delete_artifacts := λ _ _, None |}.

(** * Properties *)

(** ** Pagination *)

Section PaginationFacts.
Context {A : Type}.
Variable get : nat → HttpError + Page A.
Variable request : nat → call.

Lemma fetch_pages_S (fuel page : nat) (all : list A) :
  fetch_pages get request (S fuel) page all =
  match get page with
  | inl e => (Thrown e, [Net (request page)])
  | inr r =>
      if truthy (Some (x_next_page r)) then
        (fst (fetch_pages get request fuel (S page) (all ++ data r)),
         Net (request page) ::
         snd (fetch_pages get request fuel (S page) (all ++ data r)))
      else (Returned (all ++ data r), [Net (request page)])
  end.
Proof.
  cbn [fetch_pages]. destruct (get page) as [e|r]; [done|].
  destruct (truthy _); [|done].
  by destruct (fetch_pages get request fuel (S page) (all ++ data r)).
Qed.

(** A loop whose [n]-th request from [page] on is the last one returns
    or throws within [n + 1] requests. *)
Lemma fetch_pages_stops (n k page : nat) (all : list A) :
  stops get (page + n) →
  fst (fetch_pages get request (S n + k) page all) ≠ OutOfFuel.
Proof.
  revert page all. induction n as [|n IH]; intros page all Hstop.
  - rewrite Nat.add_0_r in Hstop. unfold stops in Hstop.
    cbn [Nat.add]. rewrite fetch_pages_S.
    destruct (get page) as [e|r]; [done|]. by rewrite Hstop.
  - cbn [Nat.add]. rewrite fetch_pages_S.
    destruct (get page) as [e|r]; [done|].
    destruct (truthy (Some (x_next_page r))); [|done].
    cbn [fst]. apply (IH (S page)).
    by replace (S page + n) with (page + S n) by lia.
Qed.

(** Network calls are the only events of a pagination loop. *)
Lemma fetch_pages_events (fuel page : nat) (all : list A) :
  Forall (λ ev, ∃ p, ev = Net (request p))
         (snd (fetch_pages get request fuel page all)).
Proof.
  revert page all. induction fuel as [|fuel IH]; intros page all.
  - constructor.
  - rewrite fetch_pages_S. destruct (get page) as [e|r].
    + repeat constructor. eauto.
    + destruct (truthy _); cbn [snd]; repeat constructor; eauto.
Qed.
End PaginationFacts.

(** ** Expiration policy *)

Section PolicyFacts.
Local Open Scope Z_scope.
Variable LocalTZA : Z → bool → Z.

Lemma shiftDate_fixed_offset (off k t : Z) :
  (∀ u b, LocalTZA u b = off) → shiftDate LocalTZA k t = t + k * msPerDay.
Proof.
  intros Hoff. unfold shiftDate, UTC, LocalTime.
  rewrite !Hoff. lia.
Qed.

Lemma isExpired_true (now : Z) (job : Job.t) :
  isExpired LocalTZA now job = true ↔
  ∃ e, expireAtDate LocalTZA job = Some e ∧ e < sevenDaysAgo LocalTZA now.
Proof.
  unfold isExpired. destruct (expireAtDate LocalTZA job) as [e|].
  - rewrite bool_decide_eq_true. split.
    + intros He. by exists e.
    + by intros (e' & [= <-] & He).
  - split; [done|]. by intros (e' & [=] & _).
Qed.
End PolicyFacts.



(** C5, as amended: a job with no [artifacts_expire_at] but with
    [created_at] is expired exactly when [created_at] moved seven
    calendar days forward in the host's zone ([setDate(getDate() + 7)])
    is strictly earlier than the reference time moved seven calendar days
    back; where the zone offset is fixed, that is [created_at] plus
    7 * 24 h strictly earlier than the reference time minus 7 * 24 h,
    which is [created_at] more than 14 * 24 h before the reference
    time. *)
Theorem created_at_fallback (LocalTZA : Z → bool → Z) (now c : Z)
    (job : Job.t) :
  Job.artifacts_expire_at job = None →
  Job.created_at job = Some c →
  (isExpired LocalTZA now job = true ↔
     (shiftDate LocalTZA 7 c < sevenDaysAgo LocalTZA now)%Z) ∧
  (∀ off, (∀ u b, LocalTZA u b = off) →
     (isExpired LocalTZA now job = true ↔
        (c + 7 * msPerDay < now - 7 * msPerDay)%Z) ∧
     (isExpired LocalTZA now job = true ↔ (c < now - 14 * msPerDay)%Z)).
Proof.
  intros Hexp Hc.
  assert (Hdef : isExpired LocalTZA now job
                 = bool_decide (shiftDate LocalTZA 7 c
                                < sevenDaysAgo LocalTZA now)%Z).
  { unfold isExpired, expireAtDate. by rewrite Hexp, Hc. }
  split.
  - by rewrite Hdef, bool_decide_eq_true.
  - intros off Hoff. rewrite Hdef, bool_decide_eq_true. unfold sevenDaysAgo.
    rewrite !(shiftDate_fixed_offset LocalTZA off) by done. lia.
Qed.

Lemma created_at_fallback_witness :
  isExpired utc (100 * day) job12 = true ∧
  (isExpired utc (94 * day) job12 = true ↔ (80 * day < 94 * day - 14 * day)%Z).
Proof.
  split.
  - apply (created_at_fallback utc (100 * day) (80 * day) job12
             eq_refl eq_refl).
    reflexivity.
  - apply (proj2 (created_at_fallback utc (94 * day) (80 * day) job12
                    eq_refl eq_refl) 0%Z).
    reflexivity.
Defined.

(** C5 as worded, with "plus 7 days", "minus 7 days" and "14 days" as
    spans of 7 and 14 times 24 hours, fails where the zone offset changes
    in between: in New York on 2024-03-13 at noon UTC, seven calendar
    days back cross the start of daylight-saving time, so [sevenDaysAgo]
    is only 6 days 23 hours back, and a job created 13 days 23.5 hours
    before the reference time is marked expired. *)
Lemma created_at_fallback_dst_counterexample :
  Job.artifacts_expire_at job_february_28 = None ∧
  Job.created_at job_february_28 = Some 1709123400000%Z ∧
  isExpired new_york march_13_noon job_february_28 = true ∧
  ¬ (isExpired new_york march_13_noon job_february_28 = true ↔
     (1709123400000 + 7 * msPerDay < march_13_noon - 7 * msPerDay)%Z) ∧
  ¬ (isExpired new_york march_13_noon job_february_28 = true ↔
     (1709123400000 < march_13_noon - 14 * msPerDay)%Z) ∧
  sevenDaysAgo new_york march_13_noon
    = (march_13_noon - 7 * msPerDay + 3600000)%Z.
Proof.
  assert (Hexp : isExpired new_york march_13_noon job_february_28 = true)
    by reflexivity.
  split; [reflexivity|]. split; [reflexivity|]. split; [exact Hexp|].
  split; [|split].
  - intros [Hlt _]. specialize (Hlt Hexp). by vm_compute in Hlt.
  - intros [Hlt _]. specialize (Hlt Hexp). by vm_compute in Hlt.
  - reflexivity.
Qed.

(** ** Deletion executor *)

Section DeletionFacts.
Variable LocalTZA : Z → bool → Z.
Variable remote : Remote.

Lemma delete_calls_app (l1 l2 : list event) :
  delete_calls (l1 ++ l2) = delete_calls l1 ++ delete_calls l2.
Proof. apply omap_app. Qed.

Lemma would_delete_app (l1 l2 : list event) :
  would_delete (l1 ++ l2) = would_delete l1 ++ would_delete l2.
Proof. apply omap_app. Qed.

Lemma delete_errors_app (l1 l2 : list event) :
  delete_errors (l1 ++ l2) = delete_errors l1 ++ delete_errors l2.
Proof. apply omap_app. Qed.

Lemma selected_app (now projectId : Z) (l1 l2 : list Job.t) :
  selected LocalTZA now projectId (l1 ++ l2) =
  selected LocalTZA now projectId l1 ++ selected LocalTZA now projectId l2.
Proof. unfold selected. by rewrite filter_app, fmap_app. Qed.

Lemma selected_cons (now projectId : Z) (job : Job.t) (l : list Job.t) :
  selected LocalTZA now projectId (job :: l) =
  (if isExpired LocalTZA now job then [(projectId, Job.id job)] else []) ++
  selected LocalTZA now projectId l.
Proof.
  unfold selected. rewrite filter_cons.
  destruct (isExpired LocalTZA now job); by case_decide.
Qed.

(** What one iteration contributes: a delete call in a live run, a
    report in a dry run, and only for a job the policy marks. *)
Lemma job_step_delete_calls (now projectId : Z) (debug dryRun : bool)
    (job : Job.t) :
  delete_calls (job_step LocalTZA remote projectId debug dryRun
                         (sevenDaysAgo LocalTZA now) job) =
  if isExpired LocalTZA now job && negb dryRun
  then [(projectId, Job.id job)] else [].
Proof.
  unfold job_step, isExpired, delete_if_old.
  destruct (expireAtDate LocalTZA job) as [e|]; [|by destruct debug].
  rewrite delete_calls_app.
  replace (delete_calls match Job.artifacts_expire_at job with
                        | Some _ => []
                        | None => if debug
                                  then [Out (LogAssuming (Job.id job) e)]
                                  else []
                        end) with (@nil (Z * Z))
    by (by destruct (Job.artifacts_expire_at job), debug).
  case_bool_decide; [|by destruct debug].
  destruct dryRun; [done|]. cbn.
  by destruct (delete_artifacts remote projectId (Job.id job)).
Qed.

Lemma job_step_would_delete (now projectId : Z) (debug dryRun : bool)
    (job : Job.t) :
  would_delete (job_step LocalTZA remote projectId debug dryRun
                         (sevenDaysAgo LocalTZA now) job) =
  if isExpired LocalTZA now job && dryRun
  then [(projectId, Job.id job)] else [].
Proof.
  unfold job_step, isExpired, delete_if_old.
  destruct (expireAtDate LocalTZA job) as [e|]; [|by destruct debug].
  rewrite would_delete_app.
  replace (would_delete match Job.artifacts_expire_at job with
                        | Some _ => []
                        | None => if debug
                                  then [Out (LogAssuming (Job.id job) e)]
                                  else []
                        end) with (@nil (Z * Z))
    by (by destruct (Job.artifacts_expire_at job), debug).
  case_bool_decide; [|by destruct debug].
  destruct dryRun; [done|]. cbn.
  by destruct (delete_artifacts remote projectId (Job.id job)).
Qed.

Lemma job_step_delete_errors (now projectId : Z) (debug dryRun : bool)
    (job : Job.t) :
  delete_errors (job_step LocalTZA remote projectId debug dryRun
                          (sevenDaysAgo LocalTZA now) job) =
  if isExpired LocalTZA now job && negb dryRun
  then match delete_artifacts remote projectId (Job.id job) with
       | Some e => [(Job.id job, e)]
       | None => []
       end
  else [].
Proof.
  unfold job_step, isExpired, delete_if_old.
  destruct (expireAtDate LocalTZA job) as [e|]; [|by destruct debug].
  rewrite delete_errors_app.
  replace (delete_errors match Job.artifacts_expire_at job with
                         | Some _ => []
                         | None => if debug
                                   then [Out (LogAssuming (Job.id job) e)]
                                   else []
                         end) with (@nil (Z * HttpError))
    by (by destruct (Job.artifacts_expire_at job), debug).
  case_bool_decide; [|by destruct debug].
  destruct dryRun; [done|]. cbn.
  by destruct (delete_artifacts remote projectId (Job.id job)).
Qed.

Lemma loop_delete_calls (now projectId : Z) (debug dryRun : bool)
    (allJobs : list Job.t) :
  delete_calls (flat_map (job_step LocalTZA remote projectId debug dryRun
                                   (sevenDaysAgo LocalTZA now)) allJobs) =
  if dryRun then [] else selected LocalTZA now projectId allJobs.
Proof.
  induction allJobs as [|job l IH]; [by destruct dryRun|].
  cbn [flat_map]. rewrite delete_calls_app, job_step_delete_calls, IH.
  rewrite selected_cons.
  by destruct dryRun, (isExpired LocalTZA now job).
Qed.

Lemma loop_would_delete (now projectId : Z) (debug dryRun : bool)
    (allJobs : list Job.t) :
  would_delete (flat_map (job_step LocalTZA remote projectId debug dryRun
                                   (sevenDaysAgo LocalTZA now)) allJobs) =
  if dryRun then selected LocalTZA now projectId allJobs else [].
Proof.
  induction allJobs as [|job l IH]; [by destruct dryRun|].
  cbn [flat_map]. rewrite would_delete_app, job_step_would_delete, IH.
  rewrite selected_cons.
  by destruct dryRun, (isExpired LocalTZA now job).
Qed.

(** A pagination trace holds neither delete calls nor console lines. *)
Lemma list_jobs_quiet (fuel : nat) (projectId : Z) :
  delete_calls (snd (list_jobs remote fuel projectId)) = [] ∧
  would_delete (snd (list_jobs remote fuel projectId)) = [] ∧
  delete_errors (snd (list_jobs remote fuel projectId)) = [].
Proof.
  unfold list_jobs, fetch_all.
  pose proof (fetch_pages_events (get_jobs remote projectId)
                (GetJobs projectId) fuel 1 []) as H.
  revert H. generalize (snd (fetch_pages (get_jobs remote projectId)
                               (GetJobs projectId) fuel 1 [])).
  intros tr H. induction H as [|ev l [p ->] _ IH]; [done|]. exact IH.
Qed.

Lemma banner_quiet (projectId : Z) (debug dryRun : bool) :
  delete_calls (banner projectId debug dryRun) = [] ∧
  would_delete (banner projectId debug dryRun) = [] ∧
  delete_errors (banner projectId debug dryRun) = [].
Proof. by destruct debug, dryRun. Qed.

(** The trace of a whole run, split by what the listing gave. *)
Lemma deleteProjectArtifacts_calls (fuel : nat) (now projectId : Z)
    (debug dryRun : bool) :
  let r := deleteProjectArtifacts LocalTZA remote fuel now projectId
             debug dryRun in
  let allJobs := listed (fst (list_jobs remote fuel projectId)) in
  delete_calls (snd r) =
    (if dryRun then [] else selected LocalTZA now projectId allJobs) ∧
  would_delete (snd r) =
    (if dryRun then selected LocalTZA now projectId allJobs else []).
Proof.
  unfold deleteProjectArtifacts.
  destruct (list_jobs_quiet fuel projectId) as (Hq1 & Hq2 & _).
  destruct (banner_quiet projectId debug dryRun) as (Hb1 & Hb2 & _).
  destruct (list_jobs remote fuel projectId) as [[allJobs|e|] tr];
    cbn [fst snd listed] in *;
    rewrite !delete_calls_app, !would_delete_app, Hq1, Hq2, Hb1, Hb2.
  - rewrite loop_delete_calls, loop_would_delete.
    split; destruct debug, dryRun; cbn; by rewrite ?app_nil_r.
  - by destruct dryRun.
  - by destruct dryRun.
Qed.
End DeletionFacts.

(** The end-to-end scenario: job 10 expired thirty days ago, job 11
    yesterday; a dry run reports job 10 only and deletes nothing. *)
Example dry_run_scenario :
  let r := deleteProjectArtifacts utc (jobs_remote job10 [job11] (λ _, false))
             5 (100 * day) 1 true true in
  fst r = Returned true ∧ would_delete (snd r) = [(1, 10)%Z] ∧
  delete_calls (snd r) = [].
Proof. vm_compute. done. Qed.

(** C6: a dry run issues no delete call whatever the job listing gives; a
    live run issues exactly the delete calls of the jobs the expiration
    policy marks, one per such job, in listing order. *)
Theorem dry_run_invariant (LocalTZA : Z → bool → Z) (remote : Remote)
    (fuel : nat) (now projectId : Z) (debug : bool) :
  let run := deleteProjectArtifacts LocalTZA remote fuel now projectId debug in
  let allJobs := listed (fst (list_jobs remote fuel projectId)) in
  delete_calls (snd (run true)) = [] ∧
  delete_calls (snd (run false)) = selected LocalTZA now projectId allJobs ∧
  length (delete_calls (snd (run false))) =
    length (filter (λ job, isExpired LocalTZA now job = true) allJobs).
Proof.
  intros run allJobs. subst run.
  pose proof (deleteProjectArtifacts_calls LocalTZA remote fuel now projectId
                debug true) as [Hdry _].
  pose proof (deleteProjectArtifacts_calls LocalTZA remote fuel now projectId
                debug false) as [Hlive _].
  cbn zeta in Hdry, Hlive. split; [exact Hdry|]. split; [exact Hlive|].
  rewrite Hlive. unfold selected. by rewrite length_fmap.
Qed.

Section IsolationFacts.
Variable LocalTZA : Z → bool → Z.
Variable remote : Remote.

Lemma job_step_logs_failure (now projectId : Z) (debug : bool)
    (job : Job.t) (e : HttpError) :
  isExpired LocalTZA now job = true →
  delete_artifacts remote projectId (Job.id job) = Some e →
  In (Out (LogDeleteError (Job.id job) projectId e))
     (job_step LocalTZA remote projectId debug false
               (sevenDaysAgo LocalTZA now) job).
Proof.
  intros Hexp Hdel. unfold job_step, delete_if_old.
  unfold isExpired in Hexp.
  destruct (expireAtDate LocalTZA job) as [d|]; [|done].
  apply in_or_app. right. rewrite Hexp, Hdel. cbn. tauto.
Qed.

Lemma deleteProjectArtifacts_result (fuel : nat) (now projectId : Z)
    (debug dryRun : bool) :
  fst (deleteProjectArtifacts LocalTZA remote fuel now projectId debug dryRun)
  = match fst (list_jobs remote fuel projectId) with
    | Returned _ => Returned true
    | Thrown _ => Returned false
    | OutOfFuel => OutOfFuel
    end.
Proof.
  unfold deleteProjectArtifacts.
  by destruct (list_jobs remote fuel projectId) as [[allJobs|e|] tr].
Qed.
End IsolationFacts.

(** C7: the executor returns false exactly when the job listing is
    rejected, and true whenever the listing succeeds; a failed delete call
    is logged, the expired jobs after it are still sent their delete
    calls, and the result stays true.  A listing that ends within the
    fuel always gives a result. *)
Theorem delete_failures_isolated (LocalTZA : Z → bool → Z) (remote : Remote)
    (fuel : nat) (now projectId : Z) (debug dryRun : bool) :
  let r := deleteProjectArtifacts LocalTZA remote fuel now projectId
             debug dryRun in
  let listing := fst (list_jobs remote fuel projectId) in
  (fst r = Returned false ↔ ∃ e, listing = Thrown e) ∧
  (∀ allJobs, listing = Returned allJobs → fst r = Returned true) ∧
  (∀ before job after e,
     listing = Returned (before ++ job :: after) →
     dryRun = false →
     isExpired LocalTZA now job = true →
     delete_artifacts remote projectId (Job.id job) = Some e →
     fst r = Returned true ∧
     In (Out (LogDeleteError (Job.id job) projectId e)) (snd r) ∧
     delete_calls (snd r) =
       selected LocalTZA now projectId before ++
       (projectId, Job.id job) :: selected LocalTZA now projectId after) ∧
  (∀ n, stops (get_jobs remote projectId) (1 + n) → n < fuel →
        fst r ≠ OutOfFuel).
Proof.
  intros r listing. subst r listing.
  pose proof (deleteProjectArtifacts_result LocalTZA remote fuel now projectId
                debug dryRun) as Hres.
  split; [|split; [|split]].
  - rewrite Hres. destruct (fst (list_jobs remote fuel projectId)) as [l|e|].
    + split; [done|]. by intros [e' ?].
    + split; [|done]. intros _. by exists e.
    + split; [done|]. by intros [e' ?].
  - intros allJobs Hl. by rewrite Hres, Hl.
  - intros before job after e Hl -> Hexp Hdel.
    split; [by rewrite Hres, Hl|]. split.
    + unfold deleteProjectArtifacts.
      destruct (list_jobs remote fuel projectId) as [o tr].
      cbn [fst] in Hl. subst o. cbn [snd].
      apply in_or_app. right. apply in_or_app. right.
      apply in_or_app. right. apply in_or_app. left.
      apply in_flat_map. exists job. split.
      * apply in_or_app. right. by left.
      * by apply job_step_logs_failure.
    + pose proof (deleteProjectArtifacts_calls LocalTZA remote fuel now
                    projectId debug false) as [Hc _].
      cbn zeta in Hc. rewrite Hc, Hl. cbn [listed].
      rewrite selected_app, selected_cons, Hexp. done.
  - intros n Hstop Hn. rewrite Hres.
    pose proof (fetch_pages_stops (get_jobs remote projectId)
                  (GetJobs projectId) n (fuel - S n) 1 [] Hstop) as Hne.
    replace (S n + (fuel - S n)) with fuel in Hne by lia.
    unfold list_jobs, fetch_all.
    by destruct (fst (fetch_pages _ _ fuel 1 [])).
Qed.

Lemma delete_failures_isolated_witness :
  fst (deleteProjectArtifacts utc four_jobs_remote 5 (100 * day) 1 true false)
    = Returned true ∧
  In (Out (LogDeleteError 10 1 not_found))
     (snd (deleteProjectArtifacts utc four_jobs_remote 5 (100 * day) 1
             true false)) ∧
  delete_calls
    (snd (deleteProjectArtifacts utc four_jobs_remote 5 (100 * day) 1
            true false)) = [(1, 10); (1, 12)]%Z ∧
  fst (deleteProjectArtifacts utc four_jobs_remote 5 (100 * day) 1 true false)
    ≠ OutOfFuel.
Proof.
  destruct (delete_failures_isolated utc four_jobs_remote 5 (100 * day) 1
              true false) as (_ & _ & Hfail & Hfuel).
  destruct (Hfail [] job10 [job11; job12; job13] not_found
              eq_refl eq_refl eq_refl eq_refl) as (Hres & Hlog & Hcalls).
  split; [exact Hres|]. split; [exact Hlog|]. split; [exact Hcalls|].
  apply (Hfuel 1%nat); [vm_compute; reflexivity|lia].
Defined.

(** C8: a job with neither timestamp is not marked by the policy; its
    iteration only logs the skip (in debug mode), and the delete calls of
    a live run and the reports of a dry run are those of the listing
    without that job. *)
Theorem no_timestamps_never_selected (LocalTZA : Z → bool → Z)
    (remote : Remote) (fuel : nat) (now projectId : Z) (debug dryRun : bool)
    (before after : list Job.t) (job : Job.t) :
  Job.artifacts_expire_at job = None →
  Job.created_at job = None →
  fst (list_jobs remote fuel projectId) = Returned (before ++ job :: after) →
  let r := deleteProjectArtifacts LocalTZA remote fuel now projectId
             debug dryRun in
  isExpired LocalTZA now job = false ∧
  job_step LocalTZA remote projectId debug dryRun
           (sevenDaysAgo LocalTZA now) job
    = (if debug then [Out (LogSkipping (Job.id job))] else []) ∧
  delete_calls (snd r) =
    (if dryRun then []
     else selected LocalTZA now projectId (before ++ after)) ∧
  would_delete (snd r) =
    (if dryRun then selected LocalTZA now projectId (before ++ after)
     else []).
Proof.
  intros Hexp Hc Hl r. subst r.
  assert (Hnone : expireAtDate LocalTZA job = None).
  { unfold expireAtDate. by rewrite Hexp, Hc. }
  assert (Hno : isExpired LocalTZA now job = false).
  { unfold isExpired. by rewrite Hnone. }
  split; [exact Hno|]. split.
  { unfold job_step. by rewrite Hnone. }
  pose proof (deleteProjectArtifacts_calls LocalTZA remote fuel now projectId
                debug dryRun) as [Hd Hw].
  cbn zeta in Hd, Hw. rewrite Hd, Hw, Hl. cbn [listed].
  rewrite !selected_app, selected_cons, Hno. done.
Qed.

Lemma no_timestamps_never_selected_witness :
  delete_calls
    (snd (deleteProjectArtifacts utc three_jobs_remote 5 (100 * day) 1
            true false))
  = [(1, 10); (1, 12)]%Z ∧
  would_delete
    (snd (deleteProjectArtifacts utc three_jobs_remote 5 (100 * day) 1
            true true))
  = [(1, 10); (1, 12)]%Z.
Proof.
  destruct (no_timestamps_never_selected utc three_jobs_remote 5 (100 * day)
              1 true false [job10] [job12] job13 eq_refl eq_refl eq_refl)
    as (_ & _ & Hlive & _).
  destruct (no_timestamps_never_selected utc three_jobs_remote 5 (100 * day)
              1 true true [job10] [job12] job13 eq_refl eq_refl eq_refl)
    as (_ & _ & _ & Hdry).
  split; [exact Hlive | exact Hdry].
Defined.

(** ** Summary generation *)

Section UpsertFacts.
Implicit Types (s : list SummaryEntry.t) (e : SummaryEntry.t).
Implicit Types (id : option Z).

Lemma findIndex_entry_Some id s i :
  findIndex_entry id s = Some i →
  ∃ x, s !! i = Some x ∧ SummaryEntry.projectId x = id ∧
       ∀ j y, s !! j = Some y → j < i → SummaryEntry.projectId y ≠ id.
Proof.
  unfold findIndex_entry. intros H.
  destruct (list_find _ s) as [[i' x]|] eqn:Hf; [|done].
  injection H as <-. apply list_find_Some in Hf as (Hi & Hx & Hlt).
  exists x. eauto.
Qed.

Lemma findIndex_entry_None id s :
  findIndex_entry id s = None →
  Forall (λ x, SummaryEntry.projectId x ≠ id) s.
Proof.
  unfold findIndex_entry. intros H.
  destruct (list_find _ s) as [[i' x]|] eqn:Hf; [done|].
  by apply list_find_None in Hf.
Qed.

Lemma find_entry_Some id s e :
  find_entry id s = Some e → e ∈ s ∧ SummaryEntry.projectId e = id.
Proof.
  unfold find_entry. intros H.
  destruct (list_find _ s) as [[i x]|] eqn:Hf; [|done].
  injection H as <-. apply list_find_Some in Hf as (Hi & Hx & _).
  split; [|done]. apply list_elem_of_lookup. eauto.
Qed.

(** With unique identifiers, [find] returns the one entry of that
    identifier. *)
Lemma find_entry_unique id s e :
  unique_ids s → e ∈ s → SummaryEntry.projectId e = id →
  find_entry id s = Some e.
Proof.
  intros Hnd Hin Hid. unfold find_entry.
  destruct (list_find_elem_of (λ entry, SummaryEntry.projectId entry = id)
              s e Hin Hid) as [[i x] Hf].
  rewrite Hf. cbn. f_equal.
  apply list_find_Some in Hf as (Hi & Hx & _).
  apply list_elem_of_lookup in Hin as [j Hj].
  assert (i = j) as ->; [|congruence].
  apply (NoDup_lookup _ i j id Hnd); rewrite list_lookup_fmap.
  - by rewrite Hi; cbn; f_equal.
  - by rewrite Hj; cbn; f_equal.
Qed.

(** Replacement in place, or append. *)
Lemma upsert_replace s e i x :
  unique_ids s → s !! i = Some x →
  SummaryEntry.projectId x = SummaryEntry.projectId e →
  upsert s (SummaryEntry.projectId e) e = <[i := e]> s.
Proof.
  intros Hnd Hi Hx. unfold upsert.
  destruct (findIndex_entry _ s) as [k|] eqn:Hf.
  - apply findIndex_entry_Some in Hf as (y & Hk & Hy & _).
    assert (k = i) as ->; [|done].
    apply (NoDup_lookup _ k i (SummaryEntry.projectId e) Hnd);
      rewrite list_lookup_fmap.
    + by rewrite Hk; cbn; f_equal.
    + by rewrite Hi; cbn; f_equal.
  - apply findIndex_entry_None in Hf.
    rewrite Forall_forall in Hf. exfalso.
    apply (Hf x); [|done]. apply list_elem_of_lookup. eauto.
Qed.

Lemma upsert_append s e :
  (∀ x, x ∈ s → SummaryEntry.projectId x ≠ SummaryEntry.projectId e) →
  upsert s (SummaryEntry.projectId e) e = s ++ [e].
Proof.
  intros Hfresh. unfold upsert.
  destruct (findIndex_entry _ s) as [k|] eqn:Hf; [|done].
  apply findIndex_entry_Some in Hf as (y & Hk & Hy & _).
  exfalso. apply (Hfresh y); [|done]. apply list_elem_of_lookup. eauto.
Qed.

Lemma upsert_unique s e :
  unique_ids s → unique_ids (upsert s (SummaryEntry.projectId e) e).
Proof.
  intros Hnd. unfold upsert, unique_ids in *.
  destruct (findIndex_entry _ s) as [k|] eqn:Hf.
  - apply findIndex_entry_Some in Hf as (y & Hk & Hy & _).
    rewrite list_fmap_insert, list_insert_id; [done|].
    rewrite list_lookup_fmap, Hk. cbn. by f_equal.
  - apply findIndex_entry_None in Hf.
    rewrite fmap_app. apply NoDup_app. split; [done|]. split.
    + intros id Hin Hin'. apply list_elem_of_singleton in Hin' as ->.
      apply list_elem_of_fmap in Hin as (x & Hx & Hin).
      rewrite Forall_forall in Hf. by apply (Hf x).
    + apply NoDup_singleton.
Qed.

(** An upsert leaves every entry of another identifier where it is. *)
Lemma upsert_other s e i x :
  s !! i = Some x →
  SummaryEntry.projectId x ≠ SummaryEntry.projectId e →
  upsert s (SummaryEntry.projectId e) e !! i = Some x.
Proof.
  intros Hi Hx. unfold upsert.
  destruct (findIndex_entry _ s) as [k|] eqn:Hf.
  - apply findIndex_entry_Some in Hf as (y & Hk & Hy & _).
    rewrite list_lookup_insert_ne; [done|]. intros ->. congruence.
  - by apply lookup_app_l_Some.
Qed.

Lemma summaryEntry_projectId (now : Z) (project : record) :
  SummaryEntry.projectId (summaryEntry now project) = rec_id project.
Proof. unfold summaryEntry. by destruct (job_artifacts_size project). Qed.

Lemma summaryEntry_projectName (now : Z) (project : record) :
  SummaryEntry.projectName (summaryEntry now project) = rec_name project.
Proof. unfold summaryEntry. by destruct (job_artifacts_size project). Qed.

Lemma generate_step_unique (clock : nat → Z) (st : GenState)
    (project : record) :
  unique_ids (summaries st) →
  unique_ids (summaries (generate_step clock st project)) ∧
  saved (generate_step clock st project)
    = Json (summaries (generate_step clock st project)).
Proof.
  intros Hnd. cbn. split; [|done].
  rewrite <- (summaryEntry_projectId (clock (ticks st)) project).
  by apply upsert_unique.
Qed.

Lemma generate_unique (clock : nat → Z) (projects : list record)
    (st : GenState) :
  unique_ids (summaries st) → unique_ids (load (saved st)) →
  unique_ids (load (saved (generate clock st projects))).
Proof.
  unfold generate. revert st.
  induction projects as [|project l IH]; intros st Hs Hf; [done|].
  cbn [foldl]. apply IH.
  - by apply generate_step_unique.
  - cbn. rewrite <- (summaryEntry_projectId (clock (ticks st)) project).
    by apply upsert_unique.
Qed.

Lemma finish_unique (clock : nat → Z) (files : Files)
    (projects : list record) :
  unique_ids (load (OUTPUT_FILE files)) →
  unique_ids (load (OUTPUT_FILE (finish clock files projects))).
Proof. intros H. unfold finish. cbn. by apply generate_unique. Qed.

Lemma main_unique (remote : Remote) (fuel : nat) (clock : nat → Z)
    (files : Files) (target : option Z) (force : bool) :
  unique_ids (load (OUTPUT_FILE files)) →
  unique_ids
    (load (OUTPUT_FILE (snd (fst (main remote fuel clock files target force))))).
Proof.
  intros H. unfold main.
  assert (Hfull : unique_ids (load (OUTPUT_FILE (snd (fst
    match fetch_all (get_projects remote) GetProjects fuel with
    | (Returned basicProjects, tr) =>
        let rs := enrich remote force (load (OUTPUT_FILE files))
                    <$> basicProjects in
        (Finished, finish clock files (fst <$> rs), tr ++ mjoin (snd <$> rs))
    | (Thrown e, tr) => (Failed e, files, tr)
    | (OutOfFuel, tr) => (Pending, files, tr)
    end))))).
  { destruct (fetch_all _ _ fuel) as [[basicProjects|e|] tr]; cbn [fst snd];
      [by apply finish_unique|done|done]. }
  destruct target as [target|]; [|exact Hfull].
  case_bool_decide; [exact Hfull|].
  destruct (get_project remote target); cbn [fst snd];
    [done|by apply finish_unique].
Qed.
End UpsertFacts.

(** C9: whatever runs are made, one after the other, from a duplicate-free
    (in particular a missing or empty) summary file, the file never holds
    two entries with the same [projectId]; on such a collection an upsert
    replaces the entry of that identifier in place, or appends when there
    is none. *)
Theorem summary_ids_stay_unique (files : Files) (rs : list Run) :
  unique_ids (load (OUTPUT_FILE files)) →
  unique_ids (load (OUTPUT_FILE (exec_all files rs))) ∧
  (∀ s e, unique_ids s →
     unique_ids (upsert s (SummaryEntry.projectId e) e) ∧
     (∀ i x, s !! i = Some x →
        SummaryEntry.projectId x = SummaryEntry.projectId e →
        upsert s (SummaryEntry.projectId e) e = <[i := e]> s) ∧
     ((∀ x, x ∈ s →
         SummaryEntry.projectId x ≠ SummaryEntry.projectId e) →
      upsert s (SummaryEntry.projectId e) e = s ++ [e])).
Proof.
  intros H. split.
  - unfold exec_all. revert files H.
    induction rs as [|r rs IH]; intros files H; [done|].
    cbn [foldl]. apply IH. unfold exec. by apply main_unique.
  - intros s e Hs. split; [by apply upsert_unique|]. split.
    + intros i x. by apply upsert_replace.
    + apply upsert_append.
Qed.

Lemma summary_ids_stay_unique_witness :
  unique_ids
    (load (OUTPUT_FILE
             (exec_all fresh [demo_run 1024 1000; demo_run 2048 2000;
                              demo_run 2048 3000]))).
Proof.
  apply (summary_ids_stay_unique fresh
           [demo_run 1024 1000; demo_run 2048 2000; demo_run 2048 3000]).
  apply NoDup_nil_2.
Defined.

Example sizeMB_values :
  sizeMB 0 = "0.00" ∧ sizeMB 1024 = "0.00" ∧ sizeMB 1048576 = "1.00" ∧
  sizeMB 5767168 = "5.50" ∧ sizeMB 123456789 = "117.74".
Proof. vm_compute. done. Qed.

(** The size and the error of a generated entry, by what line 251
    finds. *)
Lemma summaryEntry_available (now n : Z) (project : record) :
  job_artifacts_size project = Some n →
  SummaryEntry.buildArtifactsSizeBytes (summaryEntry now project) = n ∧
  SummaryEntry.error (summaryEntry now project)
    = (if truthy (rec_error project) then rec_error project else None).
Proof. intros H. unfold summaryEntry. by rewrite H. Qed.

Lemma summaryEntry_unavailable (now : Z) (project : record) :
  job_artifacts_size project = None →
  SummaryEntry.buildArtifactsSizeBytes (summaryEntry now project) = 0%Z ∧
  SummaryEntry.error (summaryEntry now project) = Some unavailable.
Proof. intros H. unfold summaryEntry. by rewrite H. Qed.

(** A statistics object that carries a non-zero [job_artifacts_size]
    gives that size, and the entry keeps the record's own error. *)
Lemma summaryEntry_nonzero_size (now n : Z) (project : record)
    (st : gmap string Z) :
  rec_statistics project = Some st → st !! "job_artifacts_size" = Some n →
  n ≠ 0%Z →
  SummaryEntry.buildArtifactsSizeBytes (summaryEntry now project) = n ∧
  SummaryEntry.error (summaryEntry now project)
    = (if truthy (rec_error project) then rec_error project else None).
Proof.
  intros Hst Hn Hnz. apply summaryEntry_available.
  unfold job_artifacts_size. rewrite Hst, Hn. by case_bool_decide.
Qed.

(** A statistics object without the key, or no statistics at all, gives
    size 0 and the availability error, whatever error the record had. *)
Lemma summaryEntry_absent_size (now : Z) (project : record) :
  (rec_statistics project ≫= (.!! "job_artifacts_size")) = None →
  SummaryEntry.buildArtifactsSizeBytes (summaryEntry now project) = 0%Z ∧
  SummaryEntry.error (summaryEntry now project) = Some unavailable.
Proof.
  intros H. apply summaryEntry_unavailable. unfold job_artifacts_size.
  destruct (rec_statistics project) as [st|]; [|done].
  cbn in H. by rewrite H.
Qed.

(** C10, at a project without artifacts: [job_artifacts_size] is present
    with value 0, and the entry is given the availability error all the
    same. *)
Theorem zero_size_reported_unavailable :
  let project := OfProject (demo_full 0) in
  let entry := summaryEntry 1000 project in
  (rec_statistics project ≫= (.!! "job_artifacts_size")) = Some 0%Z ∧
  SummaryEntry.buildArtifactsSizeBytes entry = 0%Z ∧
  SummaryEntry.error entry
    = Some "Build artifacts size not available in project statistics.".
Proof. vm_compute. done. Qed.

(** The entry of such a project carries an error, so no later run may
    skip its statistics fetch. *)
Example zero_size_never_skipped :
  let f1 := exec fresh (demo_run 0 1000) in
  statistics_fetches
    (snd (main (demo_remote 0) 3 (λ _, 2000%Z) f1 None false)) = [1%Z].
Proof. vm_compute. done. Qed.

Section SkipFacts.
Variable remote : Remote.

Lemma enrich_skip (s : list SummaryEntry.t) (project : Project.t)
    (e : SummaryEntry.t) :
  find_entry (Some (Project.id project)) s = Some e →
  can_skip false (Some e) = true →
  enrich remote false s project = (OfEntry e, []).
Proof. intros Hf Hs. unfold enrich. by rewrite Hf, Hs. Qed.

Lemma enrich_events (force : bool) (s : list SummaryEntry.t)
    (project : Project.t) (ev : event) :
  ev ∈ snd (enrich remote force s project) →
  ev = Net (GetProject (Project.id project)) ∧
  can_skip force (find_entry (Some (Project.id project)) s) = false.
Proof.
  unfold enrich.
  destruct (can_skip force _) eqn:Hs.
  - destruct (find_entry _ s); cbn; by intros ?%elem_of_nil.
  - cbn. by intros ->%list_elem_of_singleton.
Qed.
End SkipFacts.

(** C3: a project skipped on the reuse path puts the prior summary entry
    itself in the working list; that object has no [id] and no [name], so
    the entry generated from it has an undefined [projectId] and
    [projectName], the upsert looks for an entry whose [projectId] is
    undefined (replacing the first such entry, else appending), and every
    entry with a defined identifier, the project's own included, stays as
    it was. *)
Theorem skipped_entry_keyed_undefined (remote : Remote)
    (loaded : list SummaryEntry.t) (project : Project.t)
    (e : SummaryEntry.t) :
  find_entry (Some (Project.id project)) loaded = Some e →
  can_skip false (Some e) = true →
  enrich remote false loaded project = (OfEntry e, []) ∧
  rec_id (OfEntry e) = None ∧ rec_name (OfEntry e) = None ∧
  ∀ (clock : nat → Z) (st : GenState),
    let entry := summaryEntry (clock (ticks st)) (OfEntry e) in
    let s' := summaries (generate_step clock st (OfEntry e)) in
    SummaryEntry.projectId entry = None ∧
    SummaryEntry.projectName entry = None ∧
    s' = match findIndex_entry None (summaries st) with
         | Some i => <[i := entry]> (summaries st)
         | None => summaries st ++ [entry]
         end ∧
    entry ∈ s' ∧
    ∀ i x, summaries st !! i = Some x →
           SummaryEntry.projectId x ≠ None → s' !! i = Some x.
Proof.
  intros Hf Hs. split; [by apply enrich_skip|]. split; [done|].
  split; [done|]. intros clock st entry s'.
  assert (Hid : SummaryEntry.projectId entry = None)
    by apply summaryEntry_projectId.
  split; [exact Hid|]. split; [apply summaryEntry_projectName|].
  split; [done|]. split.
  - subst s'. cbn. fold entry. unfold upsert.
    destruct (findIndex_entry None (summaries st)) as [i|] eqn:Hi.
    + apply findIndex_entry_Some in Hi as (y & Hy & _).
      apply list_elem_of_lookup. exists i.
      apply list_lookup_insert_eq. by eapply lookup_lt_Some.
    + apply elem_of_app. right. by apply list_elem_of_singleton.
  - intros i x Hi Hx. subst s'. cbn. fold entry.
    change (rec_id (OfEntry e)) with (@None Z). rewrite <- Hid.
    apply upsert_other; [done|]. by rewrite Hid.
Qed.

Lemma skipped_entry_keyed_undefined_witness :
  load (OUTPUT_FILE after_first_run) = [demo_entry] ∧
  enrich (demo_remote 1024) false (load (OUTPUT_FILE after_first_run))
         demo_basic = (OfEntry demo_entry, []) ∧
  SummaryEntry.projectId (summaryEntry 2000 (OfEntry demo_entry)) = None.
Proof.
  split; [vm_compute; reflexivity|].
  destruct (skipped_entry_keyed_undefined (demo_remote 1024)
              (load (OUTPUT_FILE after_first_run)) demo_basic demo_entry)
    as (Hen & _ & _ & Hgen).
  - vm_compute. reflexivity.
  - vm_compute. reflexivity.
  - split; [exact Hen|].
    exact (proj1 (Hgen (λ _, 2000%Z)
                    {| summaries := load (OUTPUT_FILE after_first_run);
                       saved := OUTPUT_FILE after_first_run;
                       ticks := 0 |})).
Defined.

(** C2: in a full run without [--force-update] over a duplicate-free
    summary, a project whose entry in the loaded summary has a null error
    and non-null statistics is never fetched with statistics, and that
    entry itself is the project's record in the working list (which the
    raw-statistics file shows). *)
Theorem valid_entry_is_reused (remote : Remote) (fuel : nat)
    (clock : nat → Z) (files : Files) (basicProjects : list Project.t)
    (tr : list event) (i : nat) (project : Project.t)
    (e : SummaryEntry.t) :
  fetch_all (get_projects remote) GetProjects fuel
    = (Returned basicProjects, tr) →
  basicProjects !! i = Some project →
  unique_ids (load (OUTPUT_FILE files)) →
  e ∈ load (OUTPUT_FILE files) →
  SummaryEntry.projectId e = Some (Project.id project) →
  SummaryEntry.error e = None →
  SummaryEntry.statistics e ≠ None →
  let r := main remote fuel clock files None false in
  fst (fst r) = Finished ∧
  (Project.id project ∉ statistics_fetches (snd r)) ∧
  ∃ projectsWithStatistics,
    RAW_STATISTICS_FILE (snd (fst r)) = Some projectsWithStatistics ∧
    projectsWithStatistics !! i = Some (OfEntry e).
Proof.
  intros Hfetch Hi Hnd Hin Hid Herr Hst r. subst r.
  assert (Hfind : find_entry (Some (Project.id project))
                    (load (OUTPUT_FILE files)) = Some e)
    by (by apply find_entry_unique).
  assert (Hskip : can_skip false (Some e) = true).
  { unfold can_skip. rewrite Herr. cbn. apply bool_decide_eq_true.
    destruct (SummaryEntry.statistics e); [eauto|done]. }
  unfold main. rewrite Hfetch. cbn [fst snd].
  split; [done|]. split.
  - intros Hin'. apply list_elem_of_omap in Hin' as (ev & Hev & Hcall).
    destruct ev as [[page|p|p page|p j]|l]; try done.
    injection Hcall as ->.
    apply elem_of_app in Hev as [Hev|Hev].
    + pose proof (fetch_pages_events (get_projects remote) GetProjects
                    fuel 1 []) as Hall.
      unfold fetch_all in Hfetch. rewrite Hfetch in Hall. cbn [snd] in Hall.
      rewrite Forall_forall in Hall.
      by destruct (Hall _ Hev) as [page ?].
    + apply list_elem_of_join in Hev as (evs & Hev & Hevs).
      apply list_elem_of_fmap in Hevs as (rr & -> & Hrr).
      apply list_elem_of_fmap in Hrr as (p' & -> & Hp').
      apply enrich_events in Hev as [Heq Hno].
      injection Heq as Heq. rewrite <- Heq, Hfind, Hskip in Hno. done.
  - eexists. split; [reflexivity|].
    rewrite !list_lookup_fmap, Hi. cbn.
    by rewrite (enrich_skip remote _ _ e).
Qed.

Lemma valid_entry_is_reused_witness :
  fst (fst (main (demo_remote 1024) 3 (λ _, 2000%Z) after_first_run
                 None false)) = Finished ∧
  (1%Z ∉ statistics_fetches
           (snd (main (demo_remote 1024) 3 (λ _, 2000%Z) after_first_run
                      None false))) ∧
  RAW_STATISTICS_FILE
    (snd (fst (main (demo_remote 1024) 3 (λ _, 2000%Z) after_first_run
                    None false))) = Some [OfEntry demo_entry].
Proof.
  destruct (valid_entry_is_reused (demo_remote 1024) 3 (λ _, 2000%Z)
              after_first_run [demo_basic] [Net (GetProjects 1)] 0
              demo_basic demo_entry)
    as (Hfin & Hno & _).
  - reflexivity.
  - reflexivity.
  - vm_compute. apply NoDup_cons. split; [apply not_elem_of_nil|].
    apply NoDup_nil_2.
  - vm_compute. apply list_elem_of_here.
  - reflexivity.
  - reflexivity.
  - discriminate.
  - split; [exact Hfin|]. split; [exact Hno|]. vm_compute. reflexivity.
Defined.

(** ** Repeated runs *)

Section RerunFacts.
Implicit Types (s : list SummaryEntry.t) (st : GenState).

Lemma generate_step_keeps_undefined (clock : nat → Z) st
    (project : record) :
  has_undefined_id (summaries st) →
  has_undefined_id (summaries (generate_step clock st project)).
Proof.
  intros (x & Hx & Hid). cbn.
  rewrite <- (summaryEntry_projectId (clock (ticks st)) project).
  set (entry := summaryEntry (clock (ticks st)) project).
  destruct (decide (SummaryEntry.projectId entry = None)) as [Hn|Hn].
  - exists entry. split; [|done]. unfold upsert.
    destruct (findIndex_entry _ (summaries st)) as [i|] eqn:Hi.
    + apply findIndex_entry_Some in Hi as (y & Hy & _).
      apply list_elem_of_lookup. exists i.
      apply list_lookup_insert_eq. by eapply lookup_lt_Some.
    + apply elem_of_app. right. by apply list_elem_of_singleton.
  - exists x. split; [|done].
    apply list_elem_of_lookup in Hx as [i Hi].
    apply list_elem_of_lookup. exists i.
    apply upsert_other; [done|]. by rewrite Hid.
Qed.

Lemma generate_adds_undefined (clock : nat → Z)
    (projects : list record) st (e : SummaryEntry.t) :
  has_undefined_id (summaries st) ∨ OfEntry e ∈ projects →
  has_undefined_id (summaries (generate clock st projects)).
Proof.
  unfold generate. revert st.
  induction projects as [|project l IH]; intros st [Hs|Hin].
  - done.
  - by apply elem_of_nil in Hin.
  - cbn [foldl]. apply IH. left. by apply generate_step_keeps_undefined.
  - cbn [foldl]. apply IH.
    apply elem_of_cons in Hin as [<-|Hin]; [left|by right].
    exists (summaryEntry (clock (ticks st)) (OfEntry e)).
    split; [|apply summaryEntry_projectId].
    cbn. unfold upsert.
    destruct (findIndex_entry _ (summaries st)) as [i|] eqn:Hi.
    + apply findIndex_entry_Some in Hi as (y & Hy & _).
      apply list_elem_of_lookup. exists i.
      apply list_lookup_insert_eq. by eapply lookup_lt_Some.
    + apply elem_of_app. right. by apply list_elem_of_singleton.
Qed.

Lemma generate_saved (clock : nat → Z) (projects : list record) st :
  projects ≠ [] →
  saved (generate clock st projects)
    = Json (summaries (generate clock st projects)).
Proof.
  unfold generate. intros Hne.
  destruct projects as [|project l]; [done|]. clear Hne. cbn [foldl].
  assert (H : saved (generate_step clock st project)
              = Json (summaries (generate_step clock st project))) by done.
  revert H. generalize (generate_step clock st project).
  induction l as [|p l IH]; intros st' H; [done|].
  cbn [foldl]. by apply IH.
Qed.

(** Whenever the working list holds a reused entry, the saved summary
    gains an entry without identifier: a run over a summary whose
    entries all have one does not leave the file as it was. *)
Lemma reuse_changes_summary (clock : nat → Z) (files : Files)
    (projects : list record) (e : SummaryEntry.t) :
  OfEntry e ∈ projects →
  (∀ x, x ∈ load (OUTPUT_FILE files) → SummaryEntry.projectId x ≠ None) →
  OUTPUT_FILE (finish clock files projects) ≠ OUTPUT_FILE files.
Proof.
  intros Hin Hdef Heq. unfold finish in Heq. cbn [OUTPUT_FILE] in Heq.
  set (st0 := {| summaries := load (OUTPUT_FILE files);
                 saved := OUTPUT_FILE files; ticks := 0 |}) in *.
  assert (Hne : projects ≠ []) by (intros ->; by apply elem_of_nil in Hin).
  pose proof (generate_saved clock projects st0 Hne) as Hsaved.
  destruct (generate_adds_undefined clock projects st0 e (or_intror Hin))
    as (x & Hx & Hid).
  apply (Hdef x); [|done].
  rewrite <- Heq, Hsaved. exact Hx.
Qed.
End RerunFacts.

(** C1, evaluated: one project with 1024 bytes of artifacts, a first run
    on a fresh directory and a second run with the same remote data, no
    [--force-update] and even the same clock reading.  The second run
    skips the project (no statistics fetch), yet the summary file it
    leaves has a second entry, without [projectId] and [projectName]. *)
Theorem second_run_appends_entry :
  OUTPUT_FILE after_first_run = Json [demo_entry] ∧
  fst (fst (main (demo_remote 1024) 3 (λ _, 1000%Z) after_first_run
                 None false)) = Finished ∧
  statistics_fetches
    (snd (main (demo_remote 1024) 3 (λ _, 1000%Z) after_first_run
               None false)) = [] ∧
  OUTPUT_FILE (exec after_first_run (demo_run 1024 1000))
    = Json [demo_entry; anonymous_entry] ∧
  OUTPUT_FILE (exec after_first_run (demo_run 1024 1000))
    ≠ OUTPUT_FILE after_first_run.
Proof.
  assert (H1 : OUTPUT_FILE after_first_run = Json [demo_entry])
    by (vm_compute; reflexivity).
  assert (H2 : OUTPUT_FILE (exec after_first_run (demo_run 1024 1000))
               = Json [demo_entry; anonymous_entry])
    by (vm_compute; reflexivity).
  split; [exact H1|]. split; [vm_compute; reflexivity|].
  split; [vm_compute; reflexivity|]. split; [exact H2|].
  rewrite H1, H2. intros [=].
Qed.

(** * Further properties of the code *)

(** ** Pagination, page by page *)

Section PaginationRuns.
Context {A : Type}.
Variable get : nat → HttpError + Page A.
Variable request : nat → call.

Lemma fetch_pages_run (n fuel page : nat) (all : list A) :
  (∀ i, i < n → continues get (page + i)) →
  stops get (page + n) →
  n < fuel →
  fetch_pages get request fuel page all =
  (match get (page + n) with
   | inl e => Thrown e
   | inr _ => Returned (all ++ mjoin (page_data get <$> seq page (S n)))
   end,
   (λ p, Net (request p)) <$> seq page (S n)).
Proof.
  revert fuel page all.
  induction n as [|n IH]; intros fuel page all Hcont Hstop Hfuel;
    (destruct fuel as [|fuel]; [lia|]); rewrite fetch_pages_S.
  - rewrite Nat.add_0_r in *. unfold stops in Hstop. cbn [seq fmap list_fmap].
    unfold page_data. destruct (get page) as [e|r]; [done|].
    rewrite Hstop. cbn. by rewrite app_nil_r.
  - pose proof (Hcont 0 ltac:(lia)) as H0. rewrite Nat.add_0_r in H0.
    unfold continues in H0.
    assert (Hd : page_data get page
                 = match get page with inl _ => [] | inr r => data r end)
      by done.
    destruct (get page) as [e|r] eqn:Hget; [done|]. rewrite H0.
    rewrite (IH fuel (S page) (all ++ data r)).
    + replace (S page + n) with (page + S n) by lia.
      cbn [fst snd]. f_equal.
      destruct (get (page + S n)); [done|].
      f_equal. rewrite <- app_assoc. f_equal.
      change (seq page (S (S n))) with (page :: seq (S page) (S n)).
      rewrite fmap_cons. cbn [mjoin list_join]. by rewrite Hd.
    + intros i Hi. replace (S page + i) with (page + S i) by lia.
      apply Hcont. lia.
    + by replace (S page + n) with (page + S n) by lia.
    + lia.
Qed.
End PaginationRuns.

(** X1: when pages 1 to [n] each announce a next page and page [n + 1]
    is the last one, the loop requests exactly the pages 1 to [n + 1], in
    order.  If the last request is answered, the result is the data of
    all these pages, concatenated in page order; if it is rejected, the
    error is thrown and the data of the earlier pages is dropped. *)
Theorem paginated_fetch_result {A : Type} (get : nat → HttpError + Page A)
    (request : nat → call) (n fuel : nat) :
  (∀ i, i < n → continues get (1 + i)) →
  stops get (1 + n) →
  n < fuel →
  fetch_all get request fuel =
  (match get (1 + n) with
   | inl e => Thrown e
   | inr _ => Returned (mjoin (page_data get <$> seq 1 (S n)))
   end,
   (λ p, Net (request p)) <$> seq 1 (S n)).
Proof.
  intros Hcont Hstop Hfuel. unfold fetch_all.
  by rewrite (fetch_pages_run get request n fuel 1 []).
Qed.

Lemma paginated_fetch_result_witness :
  list_jobs four_jobs_remote 5 1 =
  (Returned [job10; job11; job12; job13], [Net (GetJobs 1 1); Net (GetJobs 1 2)]).
Proof.
  unfold list_jobs.
  rewrite (paginated_fetch_result (get_jobs four_jobs_remote 1) (GetJobs 1)
             1 5).
  - reflexivity.
  - intros i Hi. assert (i = 0) as -> by lia. reflexivity.
  - reflexivity.
  - lia.
Defined.

(** ** The calls of a per-project deletion *)

Section ExecutorCalls.
Variable LocalTZA : Z → bool → Z.
Variable remote : Remote.

Lemma net_calls_app (l1 l2 : list event) :
  net_calls (l1 ++ l2) = net_calls l1 ++ net_calls l2.
Proof. apply omap_app. Qed.

Lemma job_step_net_calls (now projectId : Z) (debug dryRun : bool)
    (job : Job.t) :
  net_calls (job_step LocalTZA remote projectId debug dryRun
                      (sevenDaysAgo LocalTZA now) job) =
  if isExpired LocalTZA now job && negb dryRun
  then [DeleteArtifacts projectId (Job.id job)] else [].
Proof.
  unfold job_step, isExpired, delete_if_old.
  destruct (expireAtDate LocalTZA job) as [e|]; [|by destruct debug].
  rewrite net_calls_app.
  replace (net_calls match Job.artifacts_expire_at job with
                     | Some _ => []
                     | None => if debug
                               then [Out (LogAssuming (Job.id job) e)]
                               else []
                     end) with (@nil call)
    by (by destruct (Job.artifacts_expire_at job), debug).
  case_bool_decide; [|by destruct debug].
  destruct dryRun; [done|]. cbn.
  by destruct (delete_artifacts remote projectId (Job.id job)).
Qed.

Lemma loop_net_calls (now projectId : Z) (debug dryRun : bool)
    (allJobs : list Job.t) :
  net_calls (flat_map (job_step LocalTZA remote projectId debug dryRun
                                (sevenDaysAgo LocalTZA now)) allJobs) =
  if dryRun then []
  else (λ pj, DeleteArtifacts pj.1 pj.2) <$>
       selected LocalTZA now projectId allJobs.
Proof.
  induction allJobs as [|job l IH]; [by destruct dryRun|].
  cbn [flat_map]. rewrite net_calls_app, job_step_net_calls, IH.
  rewrite selected_cons.
  by destruct dryRun, (isExpired LocalTZA now job).
Qed.

Lemma list_jobs_net_calls (fuel : nat) (projectId : Z) :
  Forall (λ ev, ∃ page, ev = Net (GetJobs projectId page))
         (snd (list_jobs remote fuel projectId)).
Proof. apply fetch_pages_events. Qed.

Lemma page_requests_net_calls (projectId : Z) (tr : list event) :
  Forall (λ ev, ∃ page, ev = Net (GetJobs projectId page)) tr →
  Forall (λ c, ∃ page, c = GetJobs projectId page) (net_calls tr).
Proof.
  induction 1 as [|ev l [page ->] _ IH]; [constructor|].
  cbn. constructor; eauto.
Qed.
End ExecutorCalls.

(** X2: the network calls of [deleteProjectArtifacts] are the page
    requests of the job listing of that project, followed in a live run
    by the delete calls of the marked jobs and in a dry run by nothing;
    no other endpoint is called.  The debug flag changes neither the
    calls nor the result. *)
Theorem executor_network_calls (LocalTZA : Z → bool → Z) (remote : Remote)
    (fuel : nat) (now projectId : Z) (debug dryRun : bool) :
  let r := deleteProjectArtifacts LocalTZA remote fuel now projectId
             debug dryRun in
  let listing := list_jobs remote fuel projectId in
  net_calls (snd r) =
    net_calls (snd listing) ++
    (if dryRun then []
     else (λ pj, DeleteArtifacts pj.1 pj.2) <$>
          selected LocalTZA now projectId (listed (fst listing))) ∧
  Forall (λ c, ∃ page, c = GetJobs projectId page) (net_calls (snd listing)) ∧
  fst r = fst (deleteProjectArtifacts LocalTZA remote fuel now projectId
                 (negb debug) dryRun) ∧
  net_calls (snd r) =
    net_calls (snd (deleteProjectArtifacts LocalTZA remote fuel now projectId
                      (negb debug) dryRun)).
Proof.
  intros r listing. subst r listing.
  assert (Hcalls : ∀ dbg,
    net_calls (snd (deleteProjectArtifacts LocalTZA remote fuel now projectId
                      dbg dryRun)) =
    net_calls (snd (list_jobs remote fuel projectId)) ++
    (if dryRun then []
     else (λ pj, DeleteArtifacts pj.1 pj.2) <$>
          selected LocalTZA now projectId
            (listed (fst (list_jobs remote fuel projectId))))).
  { intros dbg. unfold deleteProjectArtifacts.
    assert (Hb : net_calls (banner projectId dbg dryRun) = [])
      by (by destruct dbg, dryRun).
    destruct (list_jobs remote fuel projectId) as [[allJobs|e|] tr];
      cbn [fst snd listed]; rewrite !net_calls_app, Hb.
    - rewrite loop_net_calls. cbn [app]. f_equal.
      destruct dbg; cbn; by rewrite app_nil_r.
    - destruct dryRun; cbn; by rewrite ?app_nil_r.
    - destruct dryRun; cbn; by rewrite ?app_nil_r. }
  split; [apply Hcalls|]. split.
  - apply page_requests_net_calls, list_jobs_net_calls.
  - split; [by rewrite !deleteProjectArtifacts_result|].
    by rewrite !Hcalls.
Qed.

(** X3: in a zone of fixed offset, a job that is expired at one clock
    reading is expired at every later one. *)
Theorem expired_stays_expired (LocalTZA : Z → bool → Z) (off now later : Z)
    (job : Job.t) :
  (∀ u b, LocalTZA u b = off) →
  (now ≤ later)%Z →
  isExpired LocalTZA now job = true →
  isExpired LocalTZA later job = true.
Proof.
  intros Hoff Hle. rewrite !isExpired_true.
  intros (e & He & Hlt). exists e. split; [done|].
  unfold sevenDaysAgo in *.
  rewrite (shiftDate_fixed_offset LocalTZA off) in * by done. lia.
Qed.

Lemma expired_stays_expired_witness :
  isExpired utc (200 * day) job12 = true.
Proof.
  apply (expired_stays_expired utc 0 (100 * day) (200 * day) job12).
  - reflexivity.
  - discriminate.
  - reflexivity.
Defined.

(** ** Fleet-wide deletion *)

Section FleetFacts.
Variable LocalTZA : Z → bool → Z.
Variable remote : Remote.

Lemma inner_events_app (l1 l2 : list fleet_event) :
  inner_events (l1 ++ l2) = inner_events l1 ++ inner_events l2.
Proof. apply omap_app. Qed.

Lemma inner_events_Inner (tr : list event) :
  inner_events (Inner <$> tr) = tr.
Proof. induction tr as [|ev tr IH]; [done|]. cbn. by f_equal. Qed.

(** A per-project call never rejects. *)
Lemma deleteProjectArtifacts_never_throws (fuel : nat) (now projectId : Z)
    (debug dryRun : bool) (e : HttpError) :
  fst (deleteProjectArtifacts LocalTZA remote fuel now projectId debug dryRun)
  ≠ Thrown e.
Proof.
  rewrite deleteProjectArtifacts_result.
  by destruct (fst (list_jobs remote fuel projectId)).
Qed.

Lemma delete_each_cons (fuel : nat) (clock : nat → Z) (debug dryRun : bool)
    (project : Project.t) (rest : list Project.t) :
  delete_each LocalTZA remote fuel clock debug dryRun (project :: rest) =
  let r := deleteProjectArtifacts LocalTZA remote fuel (clock 0)
             (Project.id project) debug dryRun in
  let here :=
    Fleet (LogProcessing (Project.name project) (Project.id project))
    :: (Inner <$> snd r) in
  match fst r with
  | Returned _ =>
      (fst (delete_each LocalTZA remote fuel (clock ∘ S) debug dryRun rest),
       here ++
       snd (delete_each LocalTZA remote fuel (clock ∘ S) debug dryRun rest))
  | Thrown e => (Thrown e, here)
  | OutOfFuel => (OutOfFuel, here)
  end.
Proof.
  cbn [delete_each].
  destruct (deleteProjectArtifacts _ _ _ _ _ _ _) as [[b|e|] tr];
    cbn [fst snd]; [|done|done].
  by destruct (delete_each _ _ _ _ _ _ rest).
Qed.

Lemma delete_each_never_throws (fuel : nat) (clock : nat → Z)
    (debug dryRun : bool) (allProjects : list Project.t) (e : HttpError) :
  fst (delete_each LocalTZA remote fuel clock debug dryRun allProjects)
  ≠ Thrown e.
Proof.
  revert clock. induction allProjects as [|p rest IH]; intros clock; [done|].
  rewrite delete_each_cons. cbn zeta.
  pose proof (deleteProjectArtifacts_never_throws fuel (clock 0)
                (Project.id p) debug dryRun) as Hnt.
  destruct (fst (deleteProjectArtifacts _ _ _ _ _ _ _)) as [b|e'|];
    cbn [fst]; [apply IH|by destruct (Hnt e')|done].
Qed.

(** Every project is reached when each listing ends within the fuel. *)
Lemma delete_each_reaches_all (fuel : nat) (clock : nat → Z)
    (debug dryRun : bool) (allProjects : list Project.t) :
  (∀ p, p ∈ allProjects →
        ∃ n, n < fuel ∧ stops (get_jobs remote (Project.id p)) (1 + n)) →
  fst (delete_each LocalTZA remote fuel clock debug dryRun allProjects)
    = Returned () ∧
  ∀ p, p ∈ allProjects →
       Inner (Net (GetJobs (Project.id p) 1)) ∈
       snd (delete_each LocalTZA remote fuel clock debug dryRun allProjects).
Proof.
  revert clock. induction allProjects as [|p rest IH]; intros clock Hall.
  - split; [done|]. by intros p ?%elem_of_nil.
  - rewrite delete_each_cons. cbn zeta.
    destruct (Hall p ltac:(left)) as (n & Hn & Hstop).
    destruct (delete_failures_isolated LocalTZA remote fuel (clock 0)
                (Project.id p) debug dryRun) as (_ & _ & _ & Hfuel).
    specialize (Hfuel n Hstop Hn).
    pose proof (deleteProjectArtifacts_never_throws fuel (clock 0)
                  (Project.id p) debug dryRun) as Hnt.
    assert (Hfirst : Net (GetJobs (Project.id p) 1) ∈
              snd (deleteProjectArtifacts LocalTZA remote fuel (clock 0)
                     (Project.id p) debug dryRun)).
    { unfold deleteProjectArtifacts.
      assert (Hreq : Net (GetJobs (Project.id p) 1) ∈
                snd (list_jobs remote fuel (Project.id p))).
      { unfold list_jobs, fetch_all.
        destruct fuel as [|fuel']; [lia|]. rewrite fetch_pages_S.
        destruct (get_jobs remote (Project.id p) 1) as [e|r];
          [by left|].
        destruct (truthy _); by left. }
      destruct (list_jobs remote fuel (Project.id p)) as [[l|e|] tr];
        cbn [fst snd] in *; rewrite !elem_of_app; eauto. }
    destruct (fst (deleteProjectArtifacts _ _ _ _ _ _ _)) as [b|e'|];
      [|by destruct (Hnt e')|done].
    destruct (IH (clock ∘ S)) as [IHres IHin].
    { intros q Hq. apply Hall. by right. }
    cbn [fst snd]. split; [exact IHres|].
    intros q [->|Hq]%elem_of_cons.
    + apply elem_of_app. left. right. by apply list_elem_of_fmap_2.
    + apply elem_of_app. right. by apply IHin.
Qed.

(** The delete calls of the loop, project by project. *)
Lemma delete_each_delete_calls (fuel : nat) (clock : nat → Z)
    (debug dryRun : bool) (allProjects : list Project.t) :
  fst (delete_each LocalTZA remote fuel clock debug dryRun allProjects)
    = Returned () →
  delete_calls
    (inner_events
       (snd (delete_each LocalTZA remote fuel clock debug dryRun allProjects)))
  = if dryRun then []
    else mjoin (imap (λ i p, selected LocalTZA (clock i) (Project.id p)
                               (listed (fst (list_jobs remote fuel
                                               (Project.id p)))))
                     allProjects).
Proof.
  revert clock. induction allProjects as [|p rest IH]; intros clock.
  - by destruct dryRun.
  - rewrite delete_each_cons. cbn zeta.
    pose proof (deleteProjectArtifacts_calls LocalTZA remote fuel (clock 0)
                  (Project.id p) debug dryRun) as [Hc _]. cbn zeta in Hc.
    destruct (fst (deleteProjectArtifacts _ _ _ _ _ _ _)) as [b|e'|];
      [|done|done].
    cbn [fst snd]. intros Hrest.
    rewrite inner_events_app, delete_calls_app, (IH _ Hrest).
    change (inner_events (Fleet ?x :: ?l)) with (inner_events l).
    rewrite inner_events_Inner, Hc, imap_cons.
    by destruct dryRun.
Qed.

Lemma delete_each_dry_run (fuel : nat) (clock : nat → Z) (debug : bool)
    (allProjects : list Project.t) :
  delete_calls
    (inner_events
       (snd (delete_each LocalTZA remote fuel clock debug true allProjects)))
  = [].
Proof.
  revert clock. induction allProjects as [|p rest IH]; intros clock; [done|].
  rewrite delete_each_cons. cbn zeta.
  pose proof (deleteProjectArtifacts_calls LocalTZA remote fuel (clock 0)
                (Project.id p) debug true) as [Hc _]. cbn zeta in Hc.
  assert (Hhere : ∀ x, delete_calls (inner_events
            (Fleet x :: (Inner <$> snd (deleteProjectArtifacts LocalTZA remote
               fuel (clock 0) (Project.id p) debug true)))) = []).
  { intros x.
    change (inner_events (Fleet x :: ?l)) with (inner_events l).
    by rewrite inner_events_Inner. }
  destruct (fst (deleteProjectArtifacts _ _ _ _ _ _ _)) as [b|e'|];
    cbn [fst snd]; rewrite ?inner_events_app, ?delete_calls_app, ?Hhere, ?IH;
    done.
Qed.

Lemma fleet_start_quiet (debug dryRun : bool) :
  delete_calls
    (inner_events
       (Fleet LogStartingAll ::
        (if dryRun then [Inner (Out LogDryRunMode)] else []) ++
        (if debug then [Inner (Out LogDebugMode)] else []))) = [].
Proof. by destruct debug, dryRun. Qed.

Lemma project_requests_quiet (tr : list event) :
  Forall (λ ev, ∃ p, ev = Net (GetProjects p)) tr → delete_calls tr = [].
Proof. induction 1 as [|ev l [p ->] _ IH]; [done|]. exact IH. Qed.
(** With the project listing at hand, the delete calls of the whole run
    are those of the loop. *)
Lemma fleet_trace_delete_calls (fuel : nat) (clock : nat → Z)
    (debug dryRun : bool) (allProjects : list Project.t) :
  fst (fetch_all (get_projects remote) GetProjects fuel)
    = Returned allProjects →
  delete_calls (inner_events
    (snd (deleteAllExpiredArtifacts LocalTZA remote fuel clock debug dryRun)))
  = delete_calls (inner_events
      (snd (delete_each LocalTZA remote fuel clock debug dryRun allProjects)))
  ∧ (fst (deleteAllExpiredArtifacts LocalTZA remote fuel clock debug dryRun)
       = Returned true →
     fst (delete_each LocalTZA remote fuel clock debug dryRun allProjects)
       = Returned ()).
Proof.
  intros Hl.
  pose proof (fetch_pages_events (get_projects remote) GetProjects fuel 1 [])
    as Hev.
  unfold deleteAllExpiredArtifacts, fetch_all in *.
  destruct (fetch_pages (get_projects remote) GetProjects fuel 1 [])
    as [o tr]. cbn [fst snd] in *. subst o.
  apply project_requests_quiet in Hev.
  assert (Hfound : ∀ n : nat,
    delete_calls (inner_events
      ((Fleet LogStartingAll ::
        (if dryRun then [Inner (Out LogDryRunMode)] else []) ++
        (if debug then [Inner (Out LogDebugMode)] else [])) ++
       (Inner <$> tr) ++ [Fleet (LogFoundProjects n)])) = []).
  { intros n.
    rewrite !inner_events_app, !delete_calls_app, inner_events_Inner, Hev.
    by rewrite fleet_start_quiet. }
  destruct (delete_each _ _ _ _ _ _ _) as [[u|e|] tr']; cbn [fst snd];
    rewrite inner_events_app, delete_calls_app, Hfound;
    rewrite ?inner_events_app, ?delete_calls_app; cbn [app];
    (split; [by rewrite ?app_nil_r|]); [by destruct u|done|done].
Qed.
End FleetFacts.

(** X4: the fleet-wide deletion returns false exactly when the project
    listing is rejected.  When the project listing succeeds and every
    project's job listing ends (answered or rejected) within the fuel,
    it returns true and the job listing of every project is requested:
    a project whose listing is rejected does not stop the projects after
    it, nor does it change the result. *)
Theorem fleet_deletion_result (LocalTZA : Z → bool → Z) (remote : Remote)
    (fuel : nat) (clock : nat → Z) (debug dryRun : bool) :
  let r := deleteAllExpiredArtifacts LocalTZA remote fuel clock debug dryRun in
  let listing := fst (fetch_all (get_projects remote) GetProjects fuel) in
  (fst r = Returned false ↔ ∃ e, listing = Thrown e) ∧
  (∀ allProjects,
     listing = Returned allProjects →
     (∀ p, p ∈ allProjects →
           ∃ n, n < fuel ∧ stops (get_jobs remote (Project.id p)) (1 + n)) →
     fst r = Returned true ∧
     ∀ p, p ∈ allProjects → Inner (Net (GetJobs (Project.id p) 1)) ∈ snd r).
Proof.
  intros r listing. subst r listing. unfold deleteAllExpiredArtifacts.
  destruct (fetch_all (get_projects remote) GetProjects fuel)
    as [[allProjects|e|] tr]; cbn [fst snd].
  - pose proof (delete_each_never_throws LocalTZA remote fuel clock debug
                  dryRun allProjects) as Hnt.
    split.
    + destruct (delete_each _ _ _ _ _ _ _) as [[u|e|] tr']; cbn [fst].
      * split; [done|]. by intros [e ?].
      * by destruct (Hnt e).
      * split; [done|]. by intros [e ?].
    + intros ? [= <-] Hall.
      destruct (delete_each_reaches_all LocalTZA remote fuel clock debug
                  dryRun allProjects Hall) as [Hres Hin].
      destruct (delete_each _ _ _ _ _ _ _) as [[u|e|] tr']; cbn [fst snd] in *;
        [|done|done].
      split; [done|]. intros p Hp.
      rewrite !elem_of_app. right. left. by apply Hin.
  - split; [|done]. split; [by exists e|done].
  - split; [|done]. split; [done|]. by intros [e ?].
Qed.

Lemma fleet_deletion_result_witness :
  fst (deleteAllExpiredArtifacts utc fleet_remote 3 (λ _, (100 * day)%Z)
         true false) = Returned true ∧
  Inner (Net (GetJobs 2 1)) ∈
  snd (deleteAllExpiredArtifacts utc fleet_remote 3 (λ _, (100 * day)%Z)
         true false).
Proof.
  destruct (fleet_deletion_result utc fleet_remote 3 (λ _, (100 * day)%Z)
              true false) as [_ H].
  destruct (H [demo_basic; other_basic] eq_refl) as [Hres Hin].
  - intros p Hp. exists 0. split; [lia|].
    apply elem_of_cons in Hp as [->|Hp]; [exact I|].
    apply list_elem_of_singleton in Hp as ->. reflexivity.
  - split; [exact Hres|]. apply (Hin other_basic).
    apply list_elem_of_further, list_elem_of_here.
Defined.

(** X5: a fleet-wide dry run issues no delete call at all; a fleet-wide
    live run that returns true issues, project by project in listing
    order, the delete calls of the jobs the policy marks at the clock
    reading taken for that project. *)
Theorem fleet_delete_calls (LocalTZA : Z → bool → Z) (remote : Remote)
    (fuel : nat) (clock : nat → Z) (debug : bool)
    (allProjects : list Project.t) :
  fst (fetch_all (get_projects remote) GetProjects fuel)
    = Returned allProjects →
  delete_calls (inner_events
    (snd (deleteAllExpiredArtifacts LocalTZA remote fuel clock debug true)))
  = [] ∧
  (fst (deleteAllExpiredArtifacts LocalTZA remote fuel clock debug false)
     = Returned true →
   delete_calls (inner_events
     (snd (deleteAllExpiredArtifacts LocalTZA remote fuel clock debug false)))
   = mjoin (imap (λ i p, selected LocalTZA (clock i) (Project.id p)
                           (listed (fst (list_jobs remote fuel
                                           (Project.id p)))))
                 allProjects)).
Proof.
  intros Hl. split.
  - destruct (fleet_trace_delete_calls LocalTZA remote fuel clock debug true
                allProjects Hl) as [-> _].
    apply delete_each_dry_run.
  - intros Hres.
    destruct (fleet_trace_delete_calls LocalTZA remote fuel clock debug false
                allProjects Hl) as [-> Hloop].
    by rewrite delete_each_delete_calls by auto.
Qed.

Lemma fleet_delete_calls_witness :
  delete_calls (inner_events
    (snd (deleteAllExpiredArtifacts utc fleet_remote 3 (λ _, (100 * day)%Z)
            true true))) = [] ∧
  delete_calls (inner_events
    (snd (deleteAllExpiredArtifacts utc fleet_remote 3 (λ _, (100 * day)%Z)
            true false))) = [(2, 10); (2, 12)]%Z.
Proof.
  destruct (fleet_delete_calls utc fleet_remote 3 (λ _, (100 * day)%Z) true
              [demo_basic; other_basic] eq_refl) as [Hdry Hlive].
  split; [exact Hdry|]. rewrite Hlive; reflexivity.
Defined.

(** ** The reconciler beyond the skip path *)

(** X6: when the statistics fetch of a project is rejected, the raw
    record keeps the project's identifier and name and carries the fetch
    error text and empty statistics; the summary entry generated from it
    has size 0 and "0.00" MB, and its error is the availability message,
    not the fetch error.  Such an entry is never reused: the next run
    fetches the project again. *)
Theorem failed_fetch_entry (remote : Remote) (project : Project.t)
    (e : HttpError) (now : Z) :
  get_project remote (Project.id project) = inl e →
  let fetched := fetch_statistics remote project in
  let entry := summaryEntry now (OfProject fetched) in
  Project.id fetched = Project.id project ∧
  Project.name fetched = Project.name project ∧
  Project.statistics fetched = Some ∅ ∧
  Project.error fetched =
    Some ("Error fetching statistics for project " +:+
          pretty (Project.id project) +:+ ": " +:+ message e) ∧
  SummaryEntry.projectId entry = Some (Project.id project) ∧
  SummaryEntry.buildArtifactsSizeBytes entry = 0%Z ∧
  SummaryEntry.buildArtifactsSizeMB entry = "0.00" ∧
  SummaryEntry.statistics entry = Some ∅ ∧
  SummaryEntry.error entry = Some unavailable ∧
  can_skip false (Some entry) = false.
Proof.
  intros Hget fetched entry. subst entry fetched.
  unfold fetch_statistics. rewrite Hget.
  repeat (split; [reflexivity|]). reflexivity.
Qed.

Lemma failed_fetch_entry_witness :
  SummaryEntry.error
    (summaryEntry 1000 (OfProject (fetch_statistics fleet_remote demo_basic)))
  = Some unavailable ∧
  Project.error (fetch_statistics fleet_remote demo_basic) =
  Some "Error fetching statistics for project 1: Request failed with status code 404".
Proof.
  destruct (failed_fetch_entry fleet_remote demo_basic not_found 1000 eq_refl)
    as (_ & _ & _ & Herr & _ & _ & _ & _ & Hentry & _).
  split; [exact Hentry | exact Herr].
Defined.

Section RunFacts.
Variable remote : Remote.

Lemma statistics_fetches_app (l1 l2 : list event) :
  statistics_fetches (l1 ++ l2) = statistics_fetches l1 ++ statistics_fetches l2.
Proof. apply omap_app. Qed.

Lemma project_requests_no_fetch (tr : list event) :
  Forall (λ ev, ∃ p, ev = Net (GetProjects p)) tr →
  statistics_fetches tr = [].
Proof. induction 1 as [|ev l [p ->] _ IH]; [done|]. exact IH. Qed.

Lemma enrich_fetches (force : bool) (s : list SummaryEntry.t)
    (project : Project.t) :
  force = true ∨ s = [] →
  enrich remote force s project =
  (OfProject (fetch_statistics remote project),
   [Net (GetProject (Project.id project))]).
Proof.
  intros H. unfold enrich.
  replace (can_skip force (find_entry (Some (Project.id project)) s))
    with false; [done|].
  destruct H as [-> | ->]; [done | by destruct force].
Qed.

Lemma upsert_length (s : list SummaryEntry.t) (id : option Z)
    (e : SummaryEntry.t) :
  length s ≤ length (upsert s id e).
Proof.
  unfold upsert. destruct (findIndex_entry id s).
  - by rewrite length_insert.
  - rewrite length_app. lia.
Qed.

Lemma generate_length (clock : nat → Z) (projects : list record)
    (st : GenState) :
  length (summaries st) ≤ length (summaries (generate clock st projects)).
Proof.
  unfold generate. revert st.
  induction projects as [|r l IH]; intros st; [done|].
  cbn [foldl]. etrans; [|apply IH]. cbn. apply upsert_length.
Qed.

(** What a run finds in the output file afterwards is what the loop had
    in memory. *)
Lemma finish_load (clock : nat → Z) (files : Files)
    (projects : list record) :
  load (OUTPUT_FILE (finish clock files projects)) =
  summaries (generate clock
               {| summaries := load (OUTPUT_FILE files);
                  saved := OUTPUT_FILE files; ticks := 0 |} projects).
Proof.
  unfold finish. cbn [OUTPUT_FILE].
  destruct projects as [|r l]; [done|].
  by rewrite generate_saved.
Qed.

Lemma generate_other (clock : nat → Z) (projects : list record)
    (st : GenState) (i : nat) (x : SummaryEntry.t) :
  summaries st !! i = Some x →
  (∀ r, r ∈ projects → rec_id r ≠ SummaryEntry.projectId x) →
  summaries (generate clock st projects) !! i = Some x.
Proof.
  unfold generate. revert st.
  induction projects as [|r l IH]; intros st Hi Hne; [done|].
  cbn [foldl]. apply IH.
  - cbn. rewrite <- (summaryEntry_projectId (clock (ticks st)) r).
    apply upsert_other; [done|].
    rewrite summaryEntry_projectId. intros Heq.
    by apply (Hne r); [left|].
  - intros r' Hr'. apply Hne. by right.
Qed.

(** Once an identifier has an entry, it keeps having one. *)
Lemma generate_step_keeps_id (clock : nat → Z) (st : GenState)
    (project : record) (id : option Z) :
  (∃ x, x ∈ summaries st ∧ SummaryEntry.projectId x = id) →
  ∃ x, x ∈ summaries (generate_step clock st project) ∧
       SummaryEntry.projectId x = id.
Proof.
  intros (x & Hx & Hid). cbn.
  rewrite <- (summaryEntry_projectId (clock (ticks st)) project).
  set (entry := summaryEntry (clock (ticks st)) project).
  destruct (decide (SummaryEntry.projectId entry = id)) as [Hn|Hn].
  - exists entry. split; [|done]. unfold upsert.
    destruct (findIndex_entry _ (summaries st)) as [i|] eqn:Hi.
    + apply findIndex_entry_Some in Hi as (y & Hy & _).
      apply list_elem_of_lookup. exists i.
      apply list_lookup_insert_eq. by eapply lookup_lt_Some.
    + apply elem_of_app. right. by apply list_elem_of_singleton.
  - exists x. split; [|done].
    apply list_elem_of_lookup in Hx as [i Hi].
    apply list_elem_of_lookup. exists i.
    apply upsert_other; [done|]. by rewrite Hid.
Qed.

Lemma generate_covers (clock : nat → Z) (projects : list record)
    (st : GenState) (id : option Z) :
  (∃ x, x ∈ summaries st ∧ SummaryEntry.projectId x = id) ∨
  (∃ r, r ∈ projects ∧ rec_id r = id) →
  ∃ x, x ∈ summaries (generate clock st projects) ∧
       SummaryEntry.projectId x = id.
Proof.
  unfold generate. revert st.
  induction projects as [|r l IH]; intros st [Hs|(r' & Hin & Hid)].
  - done.
  - by apply elem_of_nil in Hin.
  - cbn [foldl]. apply IH. left. by apply generate_step_keeps_id.
  - cbn [foldl]. apply IH.
    apply elem_of_cons in Hin as [->|Hin]; [left|right; eauto].
    exists (summaryEntry (clock (ticks st)) r).
    split; [|by rewrite summaryEntry_projectId].
    cbn. unfold upsert.
    destruct (findIndex_entry _ (summaries st)) as [i|] eqn:Hi.
    + apply findIndex_entry_Some in Hi as (y & Hy & _).
      apply list_elem_of_lookup. exists i.
      apply list_lookup_insert_eq. by eapply lookup_lt_Some.
    + apply elem_of_app. right. by apply list_elem_of_singleton.
Qed.

Lemma main_length (fuel : nat) (clock : nat → Z) (files : Files)
    (target : option Z) (force : bool) :
  length (load (OUTPUT_FILE files)) ≤
  length (load (OUTPUT_FILE
                  (snd (fst (main remote fuel clock files target force))))).
Proof.
  assert (Hfin : ∀ projects,
    length (load (OUTPUT_FILE files)) ≤
    length (load (OUTPUT_FILE (finish clock files projects)))).
  { intros projects. rewrite finish_load.
    etrans; [|apply generate_length]. done. }
  unfold main.
  assert (Hfull : length (load (OUTPUT_FILE files)) ≤
    length (load (OUTPUT_FILE (snd (fst
      match fetch_all (get_projects remote) GetProjects fuel with
      | (Returned basicProjects, tr) =>
          let rs := enrich remote force (load (OUTPUT_FILE files))
                      <$> basicProjects in
          (Finished, finish clock files (fst <$> rs),
           tr ++ mjoin (snd <$> rs))
      | (Thrown e, tr) => (Failed e, files, tr)
      | (OutOfFuel, tr) => (Pending, files, tr)
      end))))).
  { destruct (fetch_all _ _ fuel) as [[basicProjects|e|] tr]; cbn [fst snd];
      [apply Hfin|done|done]. }
  destruct target as [target|]; [|exact Hfull].
  case_bool_decide; [exact Hfull|].
  destruct (get_project remote target); cbn [fst snd]; [done|apply Hfin].
Qed.
End RunFacts.

(** X7: a run of [main] that does not reach its end (the project listing
    is rejected or does not end, or the targeted project cannot be
    fetched) leaves both files exactly as they were; [process.exit] is
    only ever called with code 1, and only in a targeted run. *)
Theorem unfinished_run_writes_nothing (remote : Remote) (fuel : nat)
    (clock : nat → Z) (files : Files) (target : option Z) (force : bool) :
  let r := main remote fuel clock files target force in
  (fst (fst r) ≠ Finished → snd (fst r) = files) ∧
  (∀ code, fst (fst r) = Exit code →
     code = 1%Z ∧ ∃ t, target = Some t ∧ t ≠ 0%Z ∧
                       snd r = [Net (GetProject t)]).
Proof.
  intros r. subst r. unfold main.
  destruct (fetch_all (get_projects remote) GetProjects fuel)
    as [[basicProjects|e|] tr];
    (destruct target as [t|]; [case_bool_decide; [|destruct (get_project remote t)]|]);
    cbn [fst snd]; (split; [done|]); intros code [=]; subst; eauto.
Qed.

Lemma unfinished_run_writes_nothing_witness :
  snd (fst (main fleet_remote 3 (λ _, 0%Z) after_first_run (Some 5%Z) true))
  = after_first_run.
Proof.
  apply (unfinished_run_writes_nothing fleet_remote 3 (λ _, 0%Z)
           after_first_run (Some 5%Z) true).
  discriminate.
Defined.

(** X8: a targeted run makes exactly one call, the fetch of that project,
    whatever [forceUpdate] is and whatever the loaded summary holds.
    When the fetch succeeds, the raw file holds just that record, the
    summary has an entry for the identifier the server returned, every
    entry of another identifier is where it was, and the summary has
    grown by at most one entry. *)
Theorem targeted_run (remote : Remote) (fuel : nat) (clock : nat → Z)
    (files : Files) (target : Z) (force : bool) (data : Project.t) :
  target ≠ 0%Z →
  get_project remote target = inr data →
  let r := main remote fuel clock files (Some target) force in
  let after := load (OUTPUT_FILE (snd (fst r))) in
  fst (fst r) = Finished ∧
  snd r = [Net (GetProject target)] ∧
  RAW_STATISTICS_FILE (snd (fst r)) = Some [OfProject data] ∧
  summaryEntry (clock 0) (OfProject data) ∈ after ∧
  (∀ i x, load (OUTPUT_FILE files) !! i = Some x →
          SummaryEntry.projectId x ≠ Some (Project.id data) →
          after !! i = Some x) ∧
  length (load (OUTPUT_FILE files)) ≤ length after ≤
    S (length (load (OUTPUT_FILE files))).
Proof.
  intros Hne Hget r after. subst after r. unfold main.
  rewrite Hget. rewrite bool_decide_eq_false_2 by done. cbn [fst snd].
  split; [done|]. split; [done|]. split; [done|].
  rewrite finish_load. cbn.
  set (entry := summaryEntry (clock 0) (OfProject data)).
  set (s := load (OUTPUT_FILE files)).
  assert (Hid : SummaryEntry.projectId entry = Some (Project.id data))
    by apply summaryEntry_projectId.
  split; [|split].
  - unfold upsert.
    destruct (findIndex_entry _ s) as [i|] eqn:Hi.
    + apply findIndex_entry_Some in Hi as (y & Hy & _).
      apply list_elem_of_lookup. exists i.
      apply list_lookup_insert_eq. by eapply lookup_lt_Some.
    + apply elem_of_app. right. by apply list_elem_of_singleton.
  - intros i x Hi Hx. rewrite <- Hid. apply upsert_other; [done|].
    by rewrite Hid.
  - unfold upsert. destruct (findIndex_entry _ s).
    + rewrite length_insert. lia.
    + rewrite length_app. cbn. lia.
Qed.

Lemma targeted_run_witness :
  snd (main (demo_remote 2048) 3 (λ _, 2000%Z) after_first_run (Some 1%Z)
            false) = [Net (GetProject 1)] ∧
  length (load (OUTPUT_FILE
    (snd (fst (main (demo_remote 2048) 3 (λ _, 2000%Z) after_first_run
                    (Some 1%Z) false))))) ≤ 2.
Proof.
  destruct (targeted_run (demo_remote 2048) 3 (λ _, 2000%Z) after_first_run
              1 false (demo_full 2048)) as (_ & Hcalls & _ & _ & _ & _ & Hlen).
  - discriminate.
  - reflexivity.
  - split; [exact Hcalls | exact Hlen].
Defined.

(** X9: with [--force-update], or when the loaded summary is empty
    (missing or unreadable file included), a full run fetches the
    statistics of every listed project, once each and in listing order,
    and the raw file holds the fetched records in that order. *)
Theorem forced_run_fetches_all (remote : Remote) (fuel : nat)
    (clock : nat → Z) (files : Files) (force : bool)
    (basicProjects : list Project.t) :
  fst (fetch_all (get_projects remote) GetProjects fuel)
    = Returned basicProjects →
  force = true ∨ load (OUTPUT_FILE files) = [] →
  let r := main remote fuel clock files None force in
  fst (fst r) = Finished ∧
  statistics_fetches (snd r) = Project.id <$> basicProjects ∧
  RAW_STATISTICS_FILE (snd (fst r)) =
    Some ((λ p, OfProject (fetch_statistics remote p)) <$> basicProjects).
Proof.
  intros Hl Hforce r. subst r. unfold main.
  pose proof (fetch_pages_events (get_projects remote) GetProjects fuel 1 [])
    as Hev.
  unfold fetch_all in *.
  destruct (fetch_pages (get_projects remote) GetProjects fuel 1 [])
    as [o tr]. cbn [fst snd] in *. subst o. cbn [fst snd].
  assert (Hrs : enrich remote force (load (OUTPUT_FILE files)) <$> basicProjects
                = (λ p, (OfProject (fetch_statistics remote p),
                         [Net (GetProject (Project.id p))])) <$> basicProjects).
  { apply list_fmap_ext. intros i p _. by apply enrich_fetches. }
  rewrite Hrs. split; [done|]. split.
  - rewrite statistics_fetches_app, (project_requests_no_fetch tr Hev).
    cbn [app]. clear. induction basicProjects as [|p l IH]; [done|].
    cbn. by f_equal.
  - cbn. f_equal. by rewrite <- list_fmap_compose.
Qed.

Lemma forced_run_fetches_all_witness :
  statistics_fetches
    (snd (main (demo_remote 1024) 3 (λ _, 2000%Z) after_first_run None true))
  = [1%Z].
Proof.
  destruct (forced_run_fetches_all (demo_remote 1024) 3 (λ _, 2000%Z)
              after_first_run true [demo_basic] eq_refl (or_introl eq_refl))
    as (_ & H & _).
  exact H.
Defined.

(** X10: no run ever removes an entry: after any sequence of runs the
    summary has at least as many entries as before. *)
Theorem summary_never_shrinks (files : Files) (rs : list Run) :
  length (load (OUTPUT_FILE files)) ≤
  length (load (OUTPUT_FILE (exec_all files rs))).
Proof.
  unfold exec_all. revert files.
  induction rs as [|r rs IH]; intros files; [done|].
  cbn [foldl]. etrans; [|apply IH]. unfold exec. apply main_length.
Qed.

(** X11: summary generation leaves an entry untouched, at its index,
    unless a processed record reads the entry's identifier as its [id]:
    in particular entries of projects that are no longer listed stay, and
    a record taken over on the skip path (whose [id] is undefined) never
    touches an entry with a defined identifier. *)
Theorem unrelated_entries_untouched (clock : nat → Z) (files : Files)
    (projects : list record) (i : nat) (x : SummaryEntry.t) :
  load (OUTPUT_FILE files) !! i = Some x →
  (∀ r, r ∈ projects → rec_id r ≠ SummaryEntry.projectId x) →
  load (OUTPUT_FILE (finish clock files projects)) !! i = Some x.
Proof.
  intros Hi Hne. rewrite finish_load. by apply generate_other.
Qed.

Lemma unrelated_entries_untouched_witness :
  load (OUTPUT_FILE
          (finish (λ _, 2000%Z) after_first_run
                  [OfEntry demo_entry; OfProject other_basic]))
  !! 0 = Some demo_entry.
Proof.
  apply (unrelated_entries_untouched (λ _, 2000%Z) after_first_run
           [OfEntry demo_entry; OfProject other_basic] 0 demo_entry).
  - reflexivity.
  - intros r Hr.
    apply elem_of_cons in Hr as [->|Hr]; [discriminate|].
    apply list_elem_of_singleton in Hr as ->. discriminate.
Defined.

(** X12: a later run may reuse a generated entry exactly when the record
    it was generated from had a non-zero [job_artifacts_size] and no
    (non-empty) error. *)
Theorem generated_entry_reusable (now : Z) (project : record) :
  can_skip false (Some (summaryEntry now project)) = true ↔
  (∃ n, job_artifacts_size project = Some n) ∧
  truthy (rec_error project) = false.
Proof.
  unfold summaryEntry, can_skip.
  destruct (job_artifacts_size project) as [n|] eqn:Hsize; cbn.
  - assert (Hst : is_Some (rec_statistics project)).
    { unfold job_artifacts_size in Hsize.
      destruct (rec_statistics project); [eauto|done]. }
    rewrite (bool_decide_eq_true_2 _ Hst), andb_true_r.
    destruct (truthy (rec_error project)) eqn:Htr.
    + rewrite Htr. split; [done|]. by intros [_ ?].
    + split; [eauto|done].
  - split; [done|]. by intros [[n ?] _].
Qed.

(** X13: after a forced full run against a server that answers each
    project fetch with the project asked for, every listed project has
    an entry under its identifier in the summary file, whether its fetch
    succeeded or not. *)
Theorem forced_run_covers_projects (remote : Remote) (fuel : nat)
    (clock : nat → Z) (files : Files) (basicProjects : list Project.t)
    (p : Project.t) :
  answers_by_id remote →
  fst (fetch_all (get_projects remote) GetProjects fuel)
    = Returned basicProjects →
  p ∈ basicProjects →
  ∃ x, x ∈ load (OUTPUT_FILE
                   (snd (fst (main remote fuel clock files None true)))) ∧
       SummaryEntry.projectId x = Some (Project.id p).
Proof.
  intros Hans Hl Hp.
  destruct (forced_run_fetches_all remote fuel clock files true basicProjects
              Hl (or_introl eq_refl)) as (_ & _ & Hraw).
  unfold main in *.
  destruct (fetch_all (get_projects remote) GetProjects fuel) as [o tr].
  cbn [fst snd] in *. subst o. cbn [fst snd] in *.
  injection Hraw as Hraw. rewrite Hraw, finish_load.
  apply generate_covers. right.
  exists (OfProject (fetch_statistics remote p)). split.
  - by apply (list_elem_of_fmap_2 (λ p, OfProject (fetch_statistics remote p))).
  - cbn. f_equal. unfold fetch_statistics.
    destruct (get_project remote (Project.id p)) as [e|d] eqn:Hget; [done|].
    by apply Hans.
Qed.

Lemma forced_run_covers_projects_witness :
  ∃ x, x ∈ load (OUTPUT_FILE
                   (snd (fst (main (demo_remote 0) 3 (λ _, 5%Z) fresh
                                   None true)))) ∧
       SummaryEntry.projectId x = Some 1%Z.
Proof.
  apply (forced_run_covers_projects (demo_remote 0) 3 (λ _, 5%Z) fresh
           [demo_basic] demo_basic).
  - intros id d. cbn. case_bool_decide; [|done]. by intros [= <-].
  - reflexivity.
  - apply list_elem_of_here.
Defined.

(** ** The command line *)

Example arg_value_examples :
  arg_value "--delete-project-id=42" = Some "42" ∧
  arg_value "--delete-project-id=" = Some "" ∧
  arg_value "--delete-project-id=4=2" = Some "4" ∧
  arg_value "--delete-project-id" = None.
Proof. vm_compute. done. Qed.

Lemma split_no_separator (c : Ascii.ascii) (v : string) :
  Forall (λ a, a ≠ c) (String.list_ascii_of_string v) → split c v = [v].
Proof.
  induction v as [|a v IH]; [done|].
  cbn [String.list_ascii_of_string split]. intros [Ha Hv]%Forall_cons.
  destruct (Ascii.eqb_spec a c) as [->|_]; [done|].
  by rewrite (IH Hv).
Qed.

Section ScriptFacts.
Variable LocalTZA : Z → bool → Z.
Variable remote : Remote.
Variable parseInt : string → option Z.

End ScriptFacts.



Lemma find_first_match {A : Type} (f : A → bool) (before rest : list A)
    (x : A) :
  Forall (λ a, f a = false) before → f x = true →
  find f (before ++ x :: rest) = Some x.
Proof.
  intros Hbefore Hx. induction Hbefore as [|a l Ha _ IH]; cbn.
  - by rewrite Hx.
  - by rewrite Ha.
Qed.

(** X15: the first argument that starts with the flag decides, wherever
    it stands: the arguments before it (none of which starts with the
    flag) and the arguments after it (which may repeat the flag) play no
    part.  Its value is the text after the flag's [=]: for a value
    without a further [=], [--delete-project-id=v] selects [v] and
    [--project-id=v] selects what [parseInt] makes of [v]. *)
Theorem flag_value (parseInt : string → option Z) (v : string)
    (before rest : list string) :
  Forall (λ a, a ≠ equals_sign) (String.list_ascii_of_string v) →
  (Forall (λ a, String.prefix "--delete-project-id=" a = false) before →
   deleteProjectId (before ++ ("--delete-project-id=" +:+ v) :: rest)
     = Some v) ∧
  (Forall (λ a, String.prefix "--project-id=" a = false) before →
   targetProjectId parseInt (before ++ ("--project-id=" +:+ v) :: rest)
     = parseInt v).
Proof.
  intros Hv. unfold deleteProjectId, targetProjectId, arg_value.
  assert (Hp1 : String.prefix "--delete-project-id="
                  ("--delete-project-id=" +:+ v) = true).
  { cbn. by destruct v. }
  assert (Hp2 : String.prefix "--project-id=" ("--project-id=" +:+ v) = true).
  { cbn. by destruct v. }
  assert (Hs1 : split equals_sign ("--delete-project-id=" +:+ v)
                = "--delete-project-id" :: split equals_sign v).
  { unfold equals_sign. simpl. reflexivity. }
  assert (Hs2 : split equals_sign ("--project-id=" +:+ v)
                = "--project-id" :: split equals_sign v).
  { unfold equals_sign. simpl. reflexivity. }
  split; intros Hbefore.
  - rewrite (find_first_match _ before rest _ Hbefore Hp1).
    by rewrite Hs1, (split_no_separator _ _ Hv).
  - rewrite (find_first_match _ before rest _ Hbefore Hp2).
    by rewrite Hs2, (split_no_separator _ _ Hv).
Qed.

Lemma flag_value_witness :
  deleteProjectId
    ["--dry-run"; "--project-id=3"; "--delete-project-id=5";
     "--delete-project-id=all"] = Some "5" ∧
  targetProjectId (λ _, Some 7%Z)
    ["--force-update"; "--project-id=7"; "--project-id=8"] = Some 7%Z.
Proof.
  split.
  - apply (flag_value (λ _, None) "5" ["--dry-run"; "--project-id=3"]
             ["--delete-project-id=all"]).
    + repeat constructor; discriminate.
    + repeat constructor.
  - apply (flag_value (λ _, Some 7%Z) "7" ["--force-update"]
             ["--project-id=8"]).
    + repeat constructor; discriminate.
    + repeat constructor.
Defined.

(** X16: an empty value, [--delete-project-id=], does not select a
    deletion mode: with a complete configuration the script then runs
    the summary, with the target and the force flag the other arguments
    give. *)
Theorem empty_delete_id_runs_summary (LocalTZA : Z → bool → Z)
    (remote : Remote) (parseInt : string → option Z) (env : Env)
    (rest : list string) (fuel : nat) (clock : nat → Z) (files : Files) :
  truthy (GITLAB_HOST env) = true →
  truthy (GITLAB_PRIVATE_TOKEN env) = true →
  let r := script LocalTZA remote parseInt env
             ("--delete-project-id=" :: rest) fuel clock files in
  let m := main remote fuel clock files (targetProjectId parseInt rest)
             (forceUpdate rest) in
  snd (fst r) = snd (fst m) ∧
  snd r = Inner <$> snd m ∧
  fst (fst r) = match fst (fst m) with
                | Exit code => ExitCode code
                | Pending => NoExit
                | _ => ExitCode 0
                end.
Proof.
  intros Hh Ht r m. subst r m. unfold script. rewrite Hh, Ht. cbn [negb orb].
  assert (Hd : deleteProjectId ("--delete-project-id=" :: rest) = Some "")
    by reflexivity.
  rewrite Hd. cbn [truthy]. rewrite bool_decide_eq_false_2 by discriminate.
  rewrite (bool_decide_eq_true_2 ("" = "")) by done. cbn [negb].
  assert (Htarget : targetProjectId parseInt ("--delete-project-id=" :: rest)
                    = targetProjectId parseInt rest) by reflexivity.
  assert (Hforce : forceUpdate ("--delete-project-id=" :: rest)
                   = forceUpdate rest).
  { unfold forceUpdate. apply bool_decide_ext.
    rewrite elem_of_cons. split; [by intros [?|?]|by right]. }
  rewrite Htarget, Hforce.
  by destruct (main remote fuel clock files _ _) as [[[| | |] files'] tr].
Qed.

Lemma empty_delete_id_runs_summary_witness :
  OUTPUT_FILE
    (snd (fst (script utc (demo_remote 1024) (λ _, None)
                 {| GITLAB_HOST := Some "https://gitlab.example.com";
                    GITLAB_PRIVATE_TOKEN := Some "token" |}
                 ["--delete-project-id="; "--dry-run"] 3 (λ _, 1000%Z)
                 fresh)))
  = Json [demo_entry].
Proof.
  destruct (empty_delete_id_runs_summary utc (demo_remote 1024) (λ _, None)
              {| GITLAB_HOST := Some "https://gitlab.example.com";
                 GITLAB_PRIVATE_TOKEN := Some "token" |}
              ["--dry-run"] 3 (λ _, 1000%Z) fresh eq_refl eq_refl)
    as (Hfiles & _ & _).
  rewrite Hfiles. vm_compute. reflexivity.
Defined.
